(** * arTIco: the CSV accessor and the example CNN pipeline

    A shallow embedding of [src/utils/_Csv.py] (class [Csv]) and of
    [src/build/ExampleCnnMixedPipe.py] (classes [_Model] and
    [ExampleCnnMixedPipe]), with the properties their specification states.

    Python values are modelled as follows: [str] as [string], a [bool] flag
    as [bool], a [dict] with string keys as [gmap string _], an exception as
    a constructor of [exn] carried by the [result] type, and a [while] loop
    by a fuel-indexed fixpoint whose exhaustion is the outcome [Timeout]. *)

From stdpp Require Import base option list gmap strings.
From Stdlib Require Import Ascii ZArith Lia.

(** ** Outcomes of Python calls *)

Inductive exn : Type :=
  | ValueError
  | KeyError (key : string)
  | TypeError
  | IndexError
  | AttributeError
  | UnboundLocalError
  | NotFittedError.

Inductive result (A : Type) : Type :=
  | Ok (a : A)
  | Raise (e : exn)
  | Timeout.

Arguments Ok {A} a.
Arguments Raise {A} e.
Arguments Timeout {A}.

(** Sequencing: the first exception (or exhaustion) ends the call.  The
    notation [x ← r; k] is stdpp's, for any [MBind]. *)
Global Instance result_bind : MBind result := fun A B k r =>
  match r with
  | Ok a => k a
  | Raise e => Raise e
  | Timeout => Timeout
  end.

Global Instance result_ret : MRet result := @Ok.

Global Instance result_fmap : FMap result := fun A B f r =>
  match r with
  | Ok a => Ok (f a)
  | Raise e => Raise e
  | Timeout => Timeout
  end.

(** ** The operations of Python's [str] that the code relies on *)

Module PyStr.

(** [s.rfind(c)] for a one-character [c]: the highest index, or [-1]. *)
Fixpoint rfind (c : ascii) (s : string) : Z :=
  match s with
  | EmptyString => (-1)%Z
  | String a s' =>
      let r := rfind c s' in
      if (0 <=? r)%Z then (r + 1)%Z
      else if Ascii.eqb a c then 0%Z else (-1)%Z
  end.

(** [s[n:]] *)
Fixpoint drop (n : nat) (s : string) : string :=
  match n, s with
  | O, _ => s
  | S _, EmptyString => EmptyString
  | S n', String _ s' => drop n' s'
  end.

(** [s[:n]] *)
Fixpoint take (n : nat) (s : string) : string :=
  match n, s with
  | O, _ => EmptyString
  | S _, EmptyString => EmptyString
  | S n', String a s' => String a (take n' s')
  end.

(** [c in s] for a one-character [c] *)
Fixpoint contains (c : ascii) (s : string) : bool :=
  match s with
  | EmptyString => false
  | String a s' => Ascii.eqb a c || contains c s'
  end.

(** [s.startswith(t)] *)
Definition startswith (s t : string) : bool := String.prefix t s.

(** [s.endswith(t)] *)
Definition endswith (s t : string) : bool :=
  String.eqb (drop (String.length s - String.length t) s) t
  && (String.length t <=? String.length s)%nat.

End PyStr.

(** ** [pathlib.PurePath] (CPython 3.8 to 3.11), as far as [Csv] uses it

    A path is its anchor (drive and root) and the list of its remaining
    components; [suffix] and [with_suffix] only ever look at the last one. *)

Module Pathlib.

Record PurePath : Type := from_parsed_parts
  { anchor : string; parts : list string }.

(** [PurePath.name]: the final component, [''] when there is none. *)
Definition name (p : PurePath) : string := default "" (last (parts p)).

(** The body of [PurePath.suffix], on the name. *)
Definition name_suffix (nm : string) : string :=
  let i := PyStr.rfind "."%char nm in
  if ((0 <? i) && (i <? Z.of_nat (String.length nm) - 1))%Z
  then PyStr.drop (Z.to_nat i) nm
  else "".

Definition suffix (p : PurePath) : string := name_suffix (name p).

(** The name [with_suffix] computes: [name + suffix] or
    [name[:-len(old_suffix)] + suffix]. *)
Definition name_with_suffix (nm sfx : string) : string :=
  let old_suffix := name_suffix nm in
  if String.eqb old_suffix ""
  then nm +:+ sfx
  else PyStr.take (String.length nm - String.length old_suffix) nm +:+ sfx.

Definition with_suffix (p : PurePath) (sfx : string) : result PurePath :=
  if PyStr.contains "/"%char sfx then Raise ValueError
  else if (negb (String.eqb sfx "") && negb (PyStr.startswith sfx "."))
          || String.eqb sfx "."
  then Raise ValueError
  else
    let nm := name p in
    if String.eqb nm "" then Raise ValueError
    else Ok (from_parsed_parts (anchor p)
               (removelast (parts p) ++ [name_with_suffix nm sfx])).

(** [str(p)] on a POSIX system. *)
Definition str (p : PurePath) : string :=
  match parts p with
  | [] => if String.eqb (anchor p) "" then "." else anchor p
  | ps => anchor p +:+ String.concat "/" ps
  end.

End Pathlib.

Import Pathlib.

(** ** Logging ([src/utils/_custom_log.py], used through [debug] only) *)

Inductive log_arg : Type :=
  | ArgPath (p : PurePath)
  | ArgBool (b : bool)
  | ArgShape (shape : list nat)
  | ArgText (s : string).

Record log_record : Type := Debug { fmt : string; args : list log_arg }.

Definition Logger : Type := list log_record.

(** Modelled from the spec: [init_logger(log_lvl)] of the logging helper,
    which is not among the sources; it returns a logger that has emitted
    nothing yet. *)
Definition init_logger (log_lvl : Z) : Logger := [].

Definition debug (log : Logger) (f : string) (a : list log_arg) : Logger :=
  log ++ [Debug f a].

(** ** pandas, as far as [Csv] uses it

    A frame is its row index, its column labels and its rows of cells; the
    cells are of an arbitrary type [V], since no code here computes on them.
    [read_csv], [to_csv] and [np.round] themselves are parameters of
    [Csv.read] and [Csv.write] below. *)

Module Pandas.

Record Index (V : Type) : Type :=
  mkIndex { idx_name : option string; idx_values : list V }.

Record DataFrame (V : Type) : Type :=
  mkFrame { index : Index V; columns : list string; rows : list (list V) }.

Arguments mkIndex {V} _ _.
Arguments idx_name {V} _.
Arguments idx_values {V} _.
Arguments mkFrame {V} _ _ _.
Arguments index {V} _.
Arguments columns {V} _.
Arguments rows {V} _.

(** [df.shape[1]] *)
Definition shape1 {V : Type} (df : DataFrame V) : nat := length (columns df).

(** [df.index = idx] *)
Definition set_index {V : Type} (df : DataFrame V) (idx : Index V)
    : DataFrame V :=
  mkFrame idx (columns df) (rows df).

(** [idx.name = n] *)
Definition set_name {V : Type} (idx : Index V) (n : option string)
    : Index V :=
  mkIndex n (idx_values idx).

(** The [index_col] argument: one position or a list of positions. *)
Inductive index_col : Type :=
  | IdxInt (i : Z)
  | IdxList (l : list Z).

(** One call of [pd.read_csv] on the accessor's path: the arguments that
    vary between the calls of [Csv.read]. *)
Record read_call : Type :=
  mkCall { rc_index_col : index_col; rc_nrows : option nat; rc_sep : string }.

End Pandas.

Import Pandas.

(** The tab character, Python's ["\t"]. *)
Definition TAB : string := String "009"%char EmptyString.

(** ** [class Csv] *)

Module Csv.

Record t : Type := mk { csv_path : PurePath; log : Logger }.

(** The loop [while csv_path.suffix in {csv_suffix, compr_suffix}:
    csv_path = csv_path.with_suffix("")], one unit of fuel per iteration. *)
Fixpoint strip_loop (fuel : nat) (csv_suffix compr_suffix : string)
    (p : PurePath) : result PurePath :=
  if String.eqb (suffix p) csv_suffix || String.eqb (suffix p) compr_suffix
  then
    match fuel with
    | O => Timeout
    | S fuel' =>
        p' ← with_suffix p "";
        strip_loop fuel' csv_suffix compr_suffix p'
    end
  else Ok p.

(** [Csv.__init__] with every argument explicit. *)
Definition init (fuel : nat) (path : PurePath) (compress : bool)
    (log : option Logger) (csv_suffix compr_suffix : string) : result t :=
  let log := match log with
             | None => init_logger 10
             | Some l => l
             end in
  let compress :=
    if String.eqb (suffix path) compr_suffix then true else compress in
  p ← strip_loop fuel csv_suffix compr_suffix path;
  let log := debug log "CSV file without suffix is %s, Compress %s"
               [ArgPath p; ArgBool compress] in
  q ← (if compress then with_suffix p (csv_suffix +:+ compr_suffix)
        else with_suffix p csv_suffix);
  let log := debug log "CSV file is %s" [ArgPath q] in
  Ok (mk q log).

(** [Csv(csv_path, compress, compr_suffix=compr_suffix)]: the default
    logger and the suffix [".csv"], the only one its annotation admits.
    Every iteration of the loop removes at least two characters of the
    name, so the length of the name is fuel enough for a compression
    suffix that is a suffix at all (lemma [new_with_terminates]); one unit
    more lets a path without a name reach the [ValueError] of
    [with_suffix] whatever the compression suffix. *)
Definition new_with (path : PurePath) (compress : bool)
    (compr_suffix : string) : result t :=
  init (S (String.length (name path))) path compress None ".csv" compr_suffix.

(** [Csv(csv_path, compress)]: the default compression suffix [".zip"]. *)
Definition new (path : PurePath) (compress : bool) : result t :=
  new_with path compress ".zip".

(** *** [read] and [write]

    The calls into pandas and numpy are the section's parameters; a call
    of [read_csv] is also recorded, in order, in a trace, so that which
    delimiters were tried is observable.  The [debug] line each method
    starts with touches neither the path nor the frame and is left out. *)
Section IO.

Context {V Dtype FS : Type}.
Variable read_csv :
  FS -> PurePath -> index_col -> option Dtype -> option nat -> string ->
  result (DataFrame V).
Variable to_csv :
  FS -> DataFrame V -> PurePath -> string -> result FS.
Variable np_round : Index V -> Z -> result (Index V).

(** A computation that calls [read_csv]: the calls made so far go in,
    the outcome and the calls made come out. *)
Definition traced (A : Type) : Type :=
  list read_call -> result A * list read_call.

Definition traced_ret {A : Type} (a : A) : traced A :=
  fun tr => (Ok a, tr).

Definition traced_bind {A B : Type} (m : traced A) (k : A -> traced B)
    : traced B :=
  fun tr =>
    match m tr with
    | (Ok a, tr') => k a tr'
    | (Raise e, tr') => (Raise e, tr')
    | (Timeout, tr') => (Timeout, tr')
    end.

Definition lift {A : Type} (r : result A) : traced A :=
  fun tr => (r, tr).

Definition pd_read_csv (fs : FS) (self : t) (index_col : index_col)
    (dtype : option Dtype) (nrows : option nat) (sep : string)
    : traced (DataFrame V) :=
  fun tr =>
    (read_csv fs (csv_path self) index_col dtype nrows sep,
     tr ++ [mkCall index_col nrows sep]).

(** The loop [for delimiter in delimiters: csv = pd.read_csv(...,
    nrows=2, sep=delimiter); if csv.shape[1] > 0: break].  Its value is
    the loop variable [delimiter] as the loop leaves it: unbound
    ([None]) only when the list was empty. *)
Fixpoint sniff (fs : FS) (self : t) (dtype : option Dtype)
    (delimiters : list string) (delimiter : option string)
    : traced (option string) :=
  match delimiters with
  | [] => traced_ret delimiter
  | d :: rest =>
      traced_bind (pd_read_csv fs self (IdxInt 0) dtype (Some 2%nat) d)
        (fun csv =>
           if (0 <? shape1 csv)%nat then traced_ret (Some d)
           else sniff fs self dtype rest (Some d))
  end.

(** [Csv.read(dtype, idx_round_prec, index_cols)] *)
Definition read (fs : FS) (self : t) (dtype : option Dtype)
    (idx_round_prec : option Z) (index_cols : index_col)
    : traced (DataFrame V) :=
  let delimiters := [","; TAB] in
  traced_bind (sniff fs self dtype delimiters None) (fun delimiter =>
  match delimiter with
  | None => lift (Raise UnboundLocalError)
  | Some delimiter =>
      traced_bind (pd_read_csv fs self index_cols dtype None delimiter)
        (fun csv =>
           match idx_round_prec with
           | Some prec =>
               let idx_name := idx_name (index csv) in
               traced_bind (lift (np_round (index csv) prec)) (fun idx =>
               traced_ret (set_index csv (set_name idx idx_name)))
           | None => traced_ret csv
           end)
  end).

(** [Csv.write(db, float_format)]: the file system after [to_csv], and
    the accessor's path. *)
Definition write (fs : FS) (self : t) (db : DataFrame V)
    (float_format : string) : result (FS * PurePath) :=
  fs' ← to_csv fs db (csv_path self) float_format;
  Ok (fs', csv_path self).

End IO.

End Csv.

(** ** Python objects passed as configuration *)

Local Set Warnings "-register-all".

Inductive pyval : Type :=
  | PyNone
  | PyBool (b : bool)
  | PyInt (z : Z)
  | PyStr (s : string)
  | PyList (l : list pyval)
  | PyDict (d : gmap string pyval).

(** Truth value testing, as [if v:] and [not v] do it. *)
Definition truthy (v : pyval) : bool :=
  match v with
  | PyNone => false
  | PyBool b => b
  | PyInt z => negb (z =? 0)%Z
  | PyStr s => negb (String.eqb s "")
  | PyList l => match l with [] => false | _ => true end
  | PyDict d => match map_to_list d with [] => false | _ => true end
  end.

(** [d[key]] on a [dict] with string keys. *)
Definition dict_getitem (d : gmap string pyval) (key : string) : result pyval :=
  match d !! key with
  | Some v => Ok v
  | None => Raise (KeyError key)
  end.

(** [v[key]] for a string [key]: only a [dict] can be subscripted so. *)
Definition getitem (v : pyval) (key : string) : result pyval :=
  match v with
  | PyDict d => dict_getitem d key
  | _ => Raise TypeError
  end.

(** ** numpy arrays, scikit-learn's encoder and the Keras layers *)

Module Numpy.

Record ndarray (A : Type) : Type := mkArray { shape : list nat; buf : list A }.

Arguments mkArray {A} _ _.
Arguments shape {A} _.
Arguments buf {A} _.

(** [np.unique] on a one-dimensional array of strings: sorted, without
    repetitions. *)
Fixpoint insert_unique (s : string) (l : list string) : list string :=
  match l with
  | [] => [s]
  | x :: l' =>
      if String.eqb s x then l
      else if String.ltb s x then s :: l
      else x :: insert_unique s l'
  end.

Definition unique (l : list string) : list string :=
  foldr insert_unique [] l.

(** Column [j] of a two-dimensional array given by its rows. *)
Definition column {A : Type} (j : nat) (X : list (list A)) : list A :=
  omap (fun row => row !! j) X.

(** [row.argmax()]: the first position of a greatest element. *)
Fixpoint argmax_from {A : Type} (ltb : A -> A -> bool) (best : A)
    (ibest i : nat) (row : list A) : nat :=
  match row with
  | [] => ibest
  | a :: row' =>
      if ltb best a then argmax_from ltb a i (S i) row'
      else argmax_from ltb best ibest (S i) row'
  end.

Definition argmax {A : Type} (ltb : A -> A -> bool) (row : list A) : nat :=
  match row with
  | [] => O
  | a :: row' => argmax_from ltb a O 1 row'
  end.

End Numpy.

Import Numpy.

Module Sklearn.

(** [OneHotEncoder]: [categories_] exists once [fit] has run. *)
Record OneHotEncoder : Type :=
  mkEncoder { sparse_output : bool; categories_ : option (list (list string)) }.

(** [encoder.fit(X)]: per feature (column), the sorted distinct values. *)
Definition fit (enc : OneHotEncoder) (X : list (list string)) : OneHotEncoder :=
  let n_features := length (default [] (head X)) in
  mkEncoder (sparse_output enc)
    (Some (map (fun j => unique (column j X)) (seq 0 n_features))).

(** Position of a value among the categories of a feature. *)
Fixpoint index_of (s : string) (cats : list string) : option nat :=
  match cats with
  | [] => None
  | c :: cats' => if String.eqb s c then Some O else S <$> index_of s cats'
  end.

Section Values.

Context {V : Type}.
Variables zero one : V.
Variable ltb : V -> V -> bool.

(** [np.isfinite(v)] on a number, and [row.sum() == 0] on a row of them. *)
Variable is_finite : V -> bool.
Variable sum_is_zero : list V -> bool.

Definition one_hot (n i : nat) : list V :=
  map (fun k => if (k =? i)%nat then one else zero) (seq 0 n).

(** One row of [transform]: the one-hot blocks of its features, side by
    side; an unknown value is an error ([handle_unknown='error']). *)
Fixpoint transform_row (cats : list (list string)) (row : list string)
    : result (list V) :=
  match cats, row with
  | [], [] => Ok []
  | c :: cats', v :: row' =>
      match index_of v c with
      | None => Raise ValueError
      | Some i =>
          rest ← transform_row cats' row';
          Ok (one_hot (length c) i ++ rest)
      end
  | _, _ => Raise ValueError
  end.

Fixpoint mapM {A B : Type} (f : A -> result B) (l : list A)
    : result (list B) :=
  match l with
  | [] => Ok []
  | a :: l' => b ← f a; bs ← mapM f l'; Ok (b :: bs)
  end.

(** [encoder.transform(X)] on an array of strings: [check_is_fitted],
    then [check_array], which wants a sample at least, then the rows. *)
Definition transform (enc : OneHotEncoder) (X : list (list string))
    : result (list (list V)) :=
  match categories_ enc with
  | None => Raise NotFittedError
  | Some cats =>
      match X with
      | [] => Raise ValueError
      | _ => mapM (transform_row cats) X
      end
  end.

(** One row of [inverse_transform]: per feature, the category at the
    argmax of its block; a block that sums to zero cannot be inverted
    ([drop=None], [handle_unknown='error']). *)
Fixpoint inverse_row (cats : list (list string)) (row : list V)
    : result (list string) :=
  match cats with
  | [] => Ok []
  | c :: cats' =>
      let sub := take (length c) row in
      if sum_is_zero sub then Raise ValueError
      else
        rest ← inverse_row cats' (drop (length c) row);
        Ok (default "" (c !! argmax ltb sub) :: rest)
  end.

(** No [nan] and no [inf] anywhere in the array. *)
Definition all_finite (X : list (list V)) : bool :=
  forallb (forallb is_finite) X.

(** [encoder.inverse_transform(X)]: [check_is_fitted], then [check_array]
    (a sample at least, a column at least, finite numbers only), then as
    many columns as there are categories in all, then the rows.  All but
    the first raise [ValueError]. *)
Definition inverse_transform (enc : OneHotEncoder) (X : list (list V))
    : result (list (list string)) :=
  match categories_ enc with
  | None => Raise NotFittedError
  | Some cats =>
      let n_features_out := sum_list (length <$> cats) in
      match X with
      | [] => Raise ValueError
      | _ =>
          if negb (all_finite X) then Raise ValueError
          else
            mapM (fun row =>
                    if (0 <? length row)%nat
                       && (length row =? n_features_out)%nat
                    then inverse_row cats row
                    else Raise ValueError) X
      end
  end.

End Values.

End Sklearn.

Module Keras.

Inductive activation : Type := Relu | Sigmoid | Softmax.

Inductive padding : Type := Same | Valid.

Inductive layer : Type :=
  | Input (shape : list nat)
  | Conv1D (filters kernel_size : nat) (act : activation) (pad : padding)
  | MaxPooling1D
  | Flatten
  | Concatenate
  | Dense (units : nat) (act : activation).

(** The functional model [__build] wires up and compiles: two inputs, the
    convolution branch applied to the first, the dense part applied to
    the concatenation, and the output layer. *)
Record Model : Type := mkModel
  { cnn_in : layer;
    tabular_in : layer;
    cnn : list layer;
    dense : list layer;
    output : layer;
    optimizer : string;
    loss : string;
    metrics : list string }.

(** Number of values the output layer yields per sample. *)
Definition output_units (m : Model) : nat :=
  match output m with
  | Dense units _ => units
  | _ => O
  end.

End Keras.

(** ** [class _Model] *)

Module _Model.

(** The targets [y] handed to [fit]: an array of category labels, or an
    array of numbers (the booleans of the binary case included). *)
Inductive target (V : Type) : Type :=
  | Labels (y : list (list string))
  | Numeric (y : list (list V)).

Arguments Labels {V} y.
Arguments Numeric {V} y.

Record t (W : Type) : Type := mk
  { log : Logger;
    model : option (Keras.Model * W);
    is_binary : pyval;
    encoder : Sklearn.OneHotEncoder;
    labels : list (list string) }.

Arguments mk {W} _ _ _ _ _.
Arguments log {W} _.
Arguments model {W} _.
Arguments is_binary {W} _.
Arguments encoder {W} _.
Arguments labels {W} _.

(** [self.is_binary = v] *)
Definition set_is_binary {W : Type} (self : t W) (v : pyval) : t W :=
  mk (log self) (model self) v (encoder self) (labels self).

(** The label vocabulary [np.array([["Good"], ["Acceptable"], ["Marginal"],
    ["Poor"]])], an array of shape (4, 1). *)
Definition vocabulary : list (list string) :=
  [["Good"]; ["Acceptable"]; ["Marginal"]; ["Poor"]].

(** [_Model.__init__] *)
Definition init {W : Type} (log : option Logger) : t W :=
  mk (match log with None => init_logger 10 | Some l => l end)
     None
     PyNone
     (Sklearn.mkEncoder false None)
     vocabulary.

(** [_Model.__build]: the compiled network, before any training. *)
Definition build {W : Type} (self : t W) (input_dim : list nat)
    (input_dim_2d : nat) : Keras.Model :=
  let cnn_in := Keras.Input input_dim in
  let tabular_in := Keras.Input [input_dim_2d] in
  let cnn := [Keras.Conv1D 5 100 Keras.Relu Keras.Same;
              Keras.MaxPooling1D;
              Keras.Flatten] in
  let dense := [Keras.Concatenate; Keras.Dense 30 Keras.Relu] in
  let output :=
    if truthy (is_binary self)
    then Keras.Dense 1 Keras.Sigmoid
    else Keras.Dense (length (labels self)) Keras.Softmax in
  let loss :=
    if truthy (is_binary self)
    then "binary_crossentropy" else "categorical_crossentropy" in
  Keras.mkModel cnn_in tabular_in cnn dense output "adam" loss ["accuracy"].

Section Network.

(** [V]: the numbers in arrays; [W]: the weights of a trained network.
    Training and inference are Keras's: [keras_fit] yields the weights,
    [keras_forward] the value of every output unit for every sample,
    and either may raise on inputs it rejects.  [encoder_error] is what
    [encoder.transform] raises on an array of numbers, which can match
    none of its string categories: the [TypeError] of numpy comparing
    numbers with strings, or a [ValueError] of [check_array] or of the
    search for unknown categories, by the array's dtype and shape. *)
Context {V W : Type}.
Variables zero one : V.
Variable ltb : V -> V -> bool.
Variable is_finite : V -> bool.
Variable sum_is_zero : list V -> bool.
Variable encoder_error : list (list V) -> exn.
Variable keras_fit :
  Keras.Model -> ndarray V -> ndarray V -> target V ->
  forall (epochs batch_size : nat), result W.
Variable keras_forward :
  Keras.Model -> W -> ndarray V -> ndarray V -> result (nat -> nat -> V).

(** [model.predict([x, x_2d])]: one row per sample, one column per unit
    of the output layer. *)
Definition keras_predict (m : Keras.Model * W) (x x_2d : ndarray V)
    : result (list (list V)) :=
  f ← keras_forward m.1 m.2 x x_2d;
  Ok (map (fun i => map (f i) (seq 0 (Keras.output_units m.1)))
        (seq 0 (default O (head (shape x))))).

(** [_Model.fit], as far as it returns: the estimator a returning call
    leaves.  What a raising call leaves behind (the network it has built,
    the encoder it has fitted) is not modelled. *)
Definition fit (self : t W) (x x_2d : ndarray V) (y : target V)
    : result (t W) :=
  let log := debug (log self)
    "Fit model with feature shape %s, tabular feature shape %s and target shape %s"
    [ArgShape (shape x); ArgShape (shape x_2d)] in
  input_dim_2d ← match last (shape x_2d) with
                  | Some d => Ok d
                  | None => Raise IndexError
                  end;
  let net := build self (tail (shape x)) input_dim_2d in
  let log := debug log "Model summary:\n%s" [] in
  '(enc, y, log) ←
    (if negb (truthy (is_binary self)) then
       let enc := Sklearn.fit (encoder self) (labels self) in
       y' ← match y with
             | Labels y => Sklearn.transform zero one enc y
             | Numeric y => Raise (encoder_error y)
             end;
       Ok (enc, Numeric y', debug log "Transformed target shape %s" [])
     else Ok (encoder self, y, log));
  w ← keras_fit net x x_2d y 3%nat 32%nat;
  Ok (mk log (Some (net, w)) (is_binary self) enc (labels self)).

(** [_Model.predict] *)
Definition predict (self : t W) (x x_2d : ndarray V)
    : result (target V) :=
  m ← match model self with
       | Some m => Ok m
       | None => Raise AttributeError
       end;
  y ← keras_predict m x x_2d;
  if negb (truthy (is_binary self)) then
    y' ← Sklearn.inverse_transform ltb is_finite sum_is_zero (encoder self) y;
    Ok (Labels y')
  else Ok (Numeric y).

End Network.

End _Model.

(** ** [class ExampleCnnMixedPipe(BasePipe)] *)

Module ExampleCnnMixedPipe.

Record t (W : Type) : Type := mk
  { work_dir : PurePath;
    log : Logger;
    estimator : _Model.t W }.

Arguments mk {W} _ _ _.
Arguments work_dir {W} _.
Arguments log {W} _.
Arguments estimator {W} _.

(** Modelled from the spec: [BasePipe.__init__] of [src/build/_BasePipe.py],
    which is not among the sources; it supplies the attributes [work_dir]
    and [log], the latter a fresh default logger when none is given. *)
Definition BasePipe_init (work_dir : PurePath) (log : option Logger)
    : PurePath * Logger :=
  (work_dir, match log with None => init_logger 10 | Some l => l end).

(** [ExampleCnnMixedPipe.__init__] *)
Definition init {W : Type} (work_dir : PurePath) (log : option Logger) : t W :=
  let base := BasePipe_init work_dir log in
  mk base.1 base.2 (_Model.init (Some base.2)).

(** [ExampleCnnMixedPipe.set_params], its keyword arguments collected in
    the dictionary [parameters]: the subscripts are evaluated first, then
    the attribute is assigned, then the line is logged.  The pipeline as
    the call leaves it comes back with the outcome, also when the call
    raises. *)
Definition set_params {W : Type} (self : t W)
    (parameters : gmap string pyval) : t W * result () :=
  match (est ← dict_getitem parameters "Estimator"; getitem est "is_binary") with
  | Ok v =>
      let self := mk (work_dir self) (log self)
                    (_Model.set_is_binary (estimator self) v) in
      let self := mk (work_dir self)
                    (debug (log self) "Parameters passed: %s" [])
                    (estimator self) in
      (self, Ok ())
  | Raise e => (self, Raise e)
  | Timeout => (self, Timeout)
  end.

Section Network.

Context {V W : Type}.
Variables zero one : V.
Variable ltb : V -> V -> bool.
Variable is_finite : V -> bool.
Variable sum_is_zero : list V -> bool.
Variable encoder_error : list (list V) -> exn.
Variable keras_fit :
  Keras.Model -> ndarray V -> ndarray V -> _Model.target V ->
  forall (epochs batch_size : nat), result W.
Variable keras_forward :
  Keras.Model -> W -> ndarray V -> ndarray V -> result (nat -> nat -> V).

(** [ExampleCnnMixedPipe.fit] *)
Definition fit (self : t W) (x x_2d : ndarray V) (y : _Model.target V)
    : result (t W) :=
  let log := debug (log self)
    "Fit estimator with feature shape %s, tabular feature shape %s and target shape %s"
    [ArgShape (shape x); ArgShape (shape x_2d)] in
  est ← _Model.fit zero one encoder_error keras_fit (estimator self) x x_2d y;
  Ok (mk (work_dir self) log est).

(** [ExampleCnnMixedPipe.predict] *)
Definition predict (self : t W) (x x_2d : ndarray V)
    : result (_Model.target V) :=
  _Model.predict ltb is_finite sum_is_zero keras_forward
    (estimator self) x x_2d.

End Network.

End ExampleCnnMixedPipe.

(** ** Reference functions for the path normalisation

    What [Csv.__init__] computes, written on the name alone: they are what
    the theorems below compare the constructor with. *)

Module Normal.

(** A compression suffix that pathlib can find as the suffix of a name: a
    dot, then at least one character, none of them a dot or a slash. *)
Definition single_suffix (sfx : string) : bool :=
  match sfx with
  | String "." e =>
      negb (String.eqb e "")
      && (PyStr.rfind "." e <? 0)%Z
      && negb (PyStr.contains "/" e)
  | _ => false
  end.

(** The name without its pathlib suffix: [name[:-len(suffix)]], the whole
    name when it has no suffix. *)
Definition stem (nm : string) : string :=
  PyStr.take (String.length nm - String.length (name_suffix nm)) nm.

(** Whether the final suffix is [".csv"] or the compression suffix. *)
Definition strippable (compr_suffix nm : string) : bool :=
  String.eqb (name_suffix nm) ".csv"
  || String.eqb (name_suffix nm) compr_suffix.

Fixpoint strip_fuel (compr_suffix : string) (fuel : nat) (nm : string)
    : string :=
  if strippable compr_suffix nm then
    match fuel with
    | O => nm
    | S fuel' => strip_fuel compr_suffix fuel' (stem nm)
    end
  else nm.

(** The name once every final [".csv"] and compression suffix is gone. *)
Definition strip (compr_suffix nm : string) : string :=
  strip_fuel compr_suffix (String.length nm) nm.

(** Compression as the constructor settles it: asked for, or forced by
    the suffix of the path given. *)
Definition compressing (compr_suffix nm : string) (compress : bool) : bool :=
  if String.eqb (name_suffix nm) compr_suffix then true else compress.

(** The canonical suffix: [".csv"], followed by the compression suffix
    when compressing. *)
Definition canonical (compr_suffix : string) (compress : bool) : string :=
  if compress then ".csv" +:+ compr_suffix else ".csv".

(** The path [p] with its final component replaced. *)
Definition with_name (p : PurePath) (nm : string) : PurePath :=
  from_parsed_parts (anchor p) (removelast (parts p) ++ [nm]).

(** The normalisation as the constructor performs it: strip, then put the
    canonical suffix in the place of whatever suffix is left. *)
Definition replaced (compr_suffix : string) (p : PurePath) (compress : bool)
    : result PurePath :=
  if String.eqb (name p) "" then Raise ValueError
  else
    let compress := compressing compr_suffix (name p) compress in
    Ok (with_name p (stem (strip compr_suffix (name p))
                     +:+ canonical compr_suffix compress)).

(** The normalisation as the specification words it: strip, then append
    the canonical suffix to what is left. *)
Definition appended (compr_suffix : string) (p : PurePath) (compress : bool)
    : result PurePath :=
  if String.eqb (name p) "" then Raise ValueError
  else
    let compress := compressing compr_suffix (name p) compress in
    Ok (with_name p (strip compr_suffix (name p)
                     +:+ canonical compr_suffix compress)).

End Normal.

(** The path an outcome of the constructor carries. *)
Definition path_result (r : result Csv.t) : result PurePath :=
  c ← r; Ok (Csv.csv_path c).

(** A path given by its components, relative to the working directory. *)
Definition rel (ps : list string) : PurePath := from_parsed_parts "" ps.

(** ** Reference definitions for [Csv.read] *)

Module Reading.

(** The last lines of [read], on the outcome of the full [read_csv]: the
index is rounded, and given back the name it had. *)
Definition rounded {V : Type} (np_round : Index V -> Z -> result (Index V))
    (idx_round_prec : option Z) (r : result (DataFrame V))
    : result (DataFrame V) :=
  csv ← r;
  match idx_round_prec with
  | Some prec =>
      idx ← np_round (index csv) prec;
      Ok (mkFrame (mkIndex (idx_name (index csv)) (idx_values idx))
            (columns csv) (rows csv))
  | None => Ok csv
  end.

(** The two kinds of call [read] makes. *)
Definition preview_call (sep : string) : read_call :=
  mkCall (IdxInt 0) (Some 2) sep.

Definition full_call (index_cols : index_col) (sep : string) : read_call :=
  mkCall index_cols None sep.

End Reading.

(** ** A small stand-in for pandas, to run [Csv.read] on

The file system is one flag, whether the file is tab-delimited; cells are
integers.  Parsed with its own delimiter the file has the index [time] and
one column; parsed with the other one, every line is a single field, which
becomes the index, and no column is left.  The stand-in for [np.round]
rounds down to a multiple of [10 ^ (- prec)] and, unlike the code under
study, forgets the name of the index. *)

Module Toy.

Definition table : DataFrame Z :=
  mkFrame (mkIndex (Some "time") [1234; 5678]%Z) ["x"] [[10]; [20]]%Z.

Definition one_field : DataFrame Z :=
  mkFrame (mkIndex None [0; 0]%Z) [] [[]; []].

Definition read_csv (tab_delimited : bool) (path : PurePath)
    (index_col : index_col) (dtype : option unit) (nrows : option nat)
    (sep : string) : result (DataFrame Z) :=
  if bool_decide (tab_delimited = String.eqb sep TAB)
  then Ok table else Ok one_field.

Definition np_round (idx : Index Z) (prec : Z) : result (Index Z) :=
  let unit := (10 ^ (- prec))%Z in
  Ok (mkIndex None (map (fun z => (z / unit * unit)%Z) (idx_values idx))).

Definition accessor : Csv.t := Csv.mk (rel ["data"; "table.csv"]) [].

(** Numbers as integers, all of them finite; a numeric array of targets
    has a numeric dtype, on which the encoder raises [TypeError]. *)
Definition is_finite (v : Z) : bool := true.

Definition sum_is_zero (row : list Z) : bool :=
  (foldr Z.add 0 row =? 0)%Z.

Definition encoder_error (y : list (list Z)) : exn := TypeError.

(** A stand-in for Keras: training yields no weights to speak of, and
    inference gives output unit [j] of sample [i] the value [i * j]. *)
Definition keras_fit (net : Keras.Model) (x x_2d : ndarray Z)
    (y : _Model.target Z) (epochs batch_size : nat) : result () :=
  Ok ().

Definition keras_forward (net : Keras.Model) (w : ()) (x x_2d : ndarray Z)
    : result (nat -> nat -> Z) :=
  Ok (fun i j => Z.of_nat (i * j)).



(** Two samples: sequences of shape (3, 2) and three tabular features. *)
Definition x : ndarray Z := mkArray [2; 3; 2] (replicate 12 0%Z).

Definition x_2d : ndarray Z := mkArray [2; 3] (replicate 6 0%Z).

(** A fresh estimator switched to multiclass mode, and what [fit] makes of
    it on two labelled samples. *)
Definition multiclass : _Model.t () :=
  _Model.set_is_binary (_Model.init None) (PyBool false).

Definition fitted : _Model.t () :=
  match _Model.fit 0%Z 1%Z encoder_error keras_fit multiclass x x_2d
          (_Model.Labels [["Good"]; ["Poor"]]) with
  | Ok self => self
  | _ => multiclass
  end.


End Toy.

(** ** Reference definitions for [predict] *)

Module Predicting.

(** The categories the encoder holds once fitted on the vocabulary. *)
Definition categories : list string :=
  ["Acceptable"; "Good"; "Marginal"; "Poor"].

(** The label of one row of class scores. *)
Definition decode {V : Type} (ltb : V -> V -> bool) (row : list V) : string :=
  default "" (categories !! argmax ltb row).

(** Number of samples of a batch: [x.shape[0]]. *)
Definition samples {V : Type} (x : ndarray V) : nat :=
  default O (head (shape x)).

(** The array the network answers with: [n] rows of [units] scores. *)
Definition scores {V : Type} (f : nat -> nat -> V) (n units : nat)
    : list (list V) :=
  map (fun i => map (f i) (seq 0 units)) (seq 0 n).

(** Scores the encoder can invert: a row at least, finite numbers only,
    and no row that sums to zero. *)
Definition decodable {V : Type} (is_finite : V -> bool)
    (sum_is_zero : list V -> bool) (X : list (list V)) : bool :=
  match X with
  | [] => false
  | _ =>
      Sklearn.all_finite is_finite X
      && forallb (fun row => negb (sum_is_zero row)) X
  end.

End Predicting.

(** ** Reference definitions for [set_params] *)

Module Params.

(** The nested key path of [set_params] exists and leads to [v]. *)
Definition key_path (parameters : gmap string pyval) (v : pyval) : Prop :=
  exists est,
    parameters !! "Estimator" = Some (PyDict est)
    /\ est !! "is_binary" = Some v.

(** The errors a subscript raises: a missing key, or a value that cannot
    be subscripted with a string. *)
Definition lookup_error (e : exn) : Prop :=
  (exists key, e = KeyError key) \/ e = TypeError.

End Params.

(** * Facts about strings *)

Local Arguments String.append !_ _ / : simpl nomatch.

Section StrFacts.

Implicit Types s t u : string.

Lemma str_app_nil_r s : s +:+ "" = s.
Proof. induction s as [|a s IH]; simpl; [done|]. by rewrite IH. Qed.

Lemma str_app_assoc s t u : (s +:+ t) +:+ u = s +:+ t +:+ u.
Proof. induction s as [|a s IH]; simpl; [done|]. by rewrite IH. Qed.

Lemma str_length_app s t :
  String.length (s +:+ t) = String.length s + String.length t.
Proof. induction s as [|a s IH]; simpl; [done|]. by rewrite IH. Qed.

Lemma str_length_zero s : String.length s = 0 -> s = "".
Proof. by destruct s. Qed.

Lemma str_app_inv_tail s t u : s +:+ u = t +:+ u -> s = t.
Proof.
  revert t. induction s as [|a s IH]; intros [|b t] H; simpl in H.
  - done.
  - apply (f_equal String.length) in H. simpl in H.
    rewrite str_length_app in H. lia.
  - apply (f_equal String.length) in H. simpl in H.
    rewrite str_length_app in H. lia.
  - injection H as -> H. f_equal. by apply IH.
Qed.

Lemma str_drop_app s t : PyStr.drop (String.length s) (s +:+ t) = t.
Proof. induction s as [|a s IH]; simpl; [by destruct t|done]. Qed.

Lemma str_take_app s t : PyStr.take (String.length s) (s +:+ t) = s.
Proof. induction s as [|a s IH]; simpl; [by destruct t|]. by rewrite IH. Qed.


Lemma str_take_all n s : String.length s <= n -> PyStr.take n s = s.
Proof.
  revert s. induction n as [|n IH]; intros [|a s] H; simpl in *; try done.
  - lia.
  - rewrite IH; [done|lia].
Qed.

Lemma str_length_take n s :
  String.length (PyStr.take n s) = Nat.min n (String.length s).
Proof.
  revert s. induction n as [|n IH]; intros [|a s]; simpl; try done.
  by rewrite IH.
Qed.

Lemma str_length_drop n s :
  String.length (PyStr.drop n s) = String.length s - n.
Proof.
  revert s. induction n as [|n IH]; intros [|a s]; simpl; try done.
Qed.

Lemma rfind_bounds c s :
  (-1 <= PyStr.rfind c s < Z.of_nat (String.length s))%Z.
Proof.
  induction s as [|a s IH]; simpl; [lia|].
  destruct (0 <=? PyStr.rfind c s)%Z eqn:E; [lia|].
  destruct (Ascii.eqb a c); lia.
Qed.

Lemma rfind_app c s t :
  PyStr.rfind c (s +:+ t) =
    if (0 <=? PyStr.rfind c t)%Z
    then (Z.of_nat (String.length s) + PyStr.rfind c t)%Z
    else PyStr.rfind c s.
Proof.
  induction s as [|a s IH]; simpl.
  - destruct (0 <=? PyStr.rfind c t)%Z eqn:E; [lia|].
    pose proof (rfind_bounds c t). lia.
  - rewrite IH. destruct (0 <=? PyStr.rfind c t)%Z eqn:E.
    + destruct (0 <=? _ + _)%Z eqn:E'; lia.
    + done.
Qed.

Lemma endswith_app s t : PyStr.endswith (s +:+ t) t = true.
Proof.
  unfold PyStr.endswith. rewrite str_length_app.
  replace (String.length s + String.length t - String.length t)
    with (String.length s) by lia.
  rewrite str_drop_app, String.eqb_refl. simpl. apply Nat.leb_le. lia.
Qed.

End StrFacts.

(** * Facts about [suffix] and [with_suffix] *)

Section SuffixFacts.

Import Normal.
Implicit Types nm b e sfx : string.

Lemma str_length_nonempty s : s <> "" -> 0 < String.length s.
Proof. destruct s; simpl; [done|lia]. Qed.

(** A suffix, when there is one, is a proper end of the name, at least
    two characters long. *)
Lemma length_name_suffix nm :
  name_suffix nm <> "" ->
  2 <= String.length (name_suffix nm) < String.length nm.
Proof.
  unfold name_suffix. intros H.
  destruct (_ && _)%Z eqn:E; [|done].
  apply andb_true_iff in E as [E1 E2].
  apply Z.ltb_lt in E1, E2. rewrite str_length_drop. lia.
Qed.

Lemma length_stem nm :
  String.length (stem nm) =
    String.length nm - String.length (name_suffix nm).
Proof. unfold stem. rewrite str_length_take. lia. Qed.


Lemma stem_no_suffix nm : name_suffix nm = "" -> stem nm = nm.
Proof.
  intros H. unfold stem. rewrite H. simpl.
  rewrite Nat.sub_0_r. by apply str_take_all.
Qed.

Lemma stem_nonempty nm : nm <> "" -> stem nm <> "".
Proof.
  intros H Hs. apply (f_equal String.length) in Hs.
  rewrite length_stem in Hs. simpl in Hs.
  apply str_length_nonempty in H.
  destruct (decide (name_suffix nm = "")) as [E|E].
  - rewrite E in Hs. simpl in Hs. lia.
  - apply length_name_suffix in E. lia.
Qed.

Lemma stem_shorter nm :
  name_suffix nm <> "" -> String.length (stem nm) < String.length nm.
Proof.
  intros H. rewrite length_stem. apply length_name_suffix in H. lia.
Qed.

Lemma stem_le nm : String.length (stem nm) <= String.length nm.
Proof. rewrite length_stem. lia. Qed.

(** The suffix of [b.e], for a non-empty [b] and a non-empty [e] free of
    dots, is [.e]. *)
Lemma name_suffix_dot b e :
  b <> "" -> e <> "" -> PyStr.rfind "." e = (-1)%Z ->
  name_suffix (b +:+ String "." e) = String "." e.
Proof.
  intros Hb He Hdot. unfold name_suffix.
  rewrite rfind_app, str_length_app. simpl. rewrite Hdot. simpl.
  apply str_length_nonempty in Hb, He.
  destruct (_ && _)%Z eqn:E.
  - rewrite Z.add_0_r, Nat2Z.id. apply str_drop_app.
  - apply andb_false_iff in E as [E|E]; apply Z.ltb_ge in E; lia.
Qed.

Lemma stem_dot b e :
  b <> "" -> e <> "" -> PyStr.rfind "." e = (-1)%Z ->
  stem (b +:+ String "." e) = b.
Proof.
  intros Hb He Hdot. unfold stem.
  rewrite name_suffix_dot by done. rewrite str_length_app.
  replace (_ + _ - _) with (String.length b) by lia.
  apply str_take_app.
Qed.

Lemma name_suffix_csv b : b <> "" -> name_suffix (b +:+ ".csv") = ".csv".
Proof. intros. by apply (name_suffix_dot b "csv"). Qed.

Lemma stem_csv b : b <> "" -> stem (b +:+ ".csv") = b.
Proof. intros. by apply (stem_dot b "csv"). Qed.

Lemma str_app_nonempty_l s t : s <> "" -> s +:+ t <> "".
Proof. by destruct s. Qed.

Lemma name_with_suffix_stem nm sfx : name_with_suffix nm sfx = stem nm +:+ sfx.
Proof.
  unfold name_with_suffix.
  destruct (String.eqb_spec (name_suffix nm) "") as [E|E]; [|done].
  by rewrite stem_no_suffix.
Qed.

Lemma name_with_name p nm : name (with_name p nm) = nm.
Proof. unfold name, with_name. simpl. by rewrite last_snoc. Qed.

Lemma with_name_with_name p nm nm' :
  with_name (with_name p nm) nm' = with_name p nm'.
Proof. unfold with_name. simpl. by rewrite removelast_last. Qed.

(** [with_suffix("")] on a path with a name. *)
Lemma with_suffix_empty p :
  name p <> "" -> with_suffix p "" = Ok (with_name p (stem (name p))).
Proof.
  intros H. unfold with_suffix. simpl.
  destruct (String.eqb_spec (name p) ""); [done|].
  by rewrite name_with_suffix_stem, str_app_nil_r.
Qed.

End SuffixFacts.

(** * Paths and their text *)

Section PathFacts.

Import Normal.

Lemma path_result_ok r q :
  path_result r = Ok q <-> exists c, r = Ok c /\ Csv.csv_path c = q.
Proof.
  destruct r as [c|e|]; simpl; split.
  - intros [= <-]. by exists c.
  - by intros (c' & [= <-] & <-).
  - done.
  - by intros (? & ? & _).
  - done.
  - by intros (? & ? & _).
Qed.

Lemma suffix_name_nonempty p : suffix p <> "" -> name p <> "".
Proof. unfold suffix. by intros H E; rewrite E in H. Qed.

Lemma concat_snoc (l : list string) nm :
  exists pre, String.concat "/" (l ++ [nm]) = pre +:+ nm.
Proof.
  induction l as [|x l (pre & IH)].
  - by exists "".
  - exists (x +:+ "/" +:+ pre).
    change (String.concat "/" ((x :: l) ++ [nm]))
      with (String.concat "/" (x :: (l ++ [nm]))).
    destruct (l ++ [nm]) as [|y l'] eqn:E; [by destruct l|].
    change (String.concat "/" (x :: y :: l'))
      with (x +:+ "/" +:+ String.concat "/" (y :: l')).
    by rewrite IH, !str_app_assoc.
Qed.

(** The text of a path ends in its final component. *)
Lemma str_with_name p nm : exists pre, str (with_name p nm) = pre +:+ nm.
Proof.
  unfold str, with_name. simpl.
  destruct (concat_snoc (removelast (parts p)) nm) as (pre & E).
  destruct (removelast (parts p) ++ [nm]) as [|y l] eqn:El.
  - by destruct (removelast (parts p)).
  - exists (anchor p +:+ pre).
    change (anchor p +:+ String.concat "/" (y :: l) = (anchor p +:+ pre) +:+ nm).
    by rewrite E, str_app_assoc.
Qed.

Lemma str_endswith p b sfx :
  PyStr.endswith (str (with_name p (b +:+ sfx))) sfx = true.
Proof.
  destruct (str_with_name p (b +:+ sfx)) as (pre & ->).
  rewrite <- str_app_assoc. apply endswith_app.
Qed.

End PathFacts.

(** * The constructor, for a compression suffix that is a suffix *)

Section Compression.

Import Normal.

Variable zs : string.
Hypothesis Hzs : single_suffix zs = true.

Implicit Types nm b : string.

(** The compression suffix is a dot and an extension. *)
Lemma compr_suffix_shape :
  exists e, zs = String "." e /\ e <> ""
            /\ PyStr.rfind "." e = (-1)%Z /\ PyStr.contains "/" e = false.
Proof using Hzs.
  unfold single_suffix in Hzs.
  destruct zs as [|a e]; [done|].
  destruct (Ascii.eqb_spec a ".") as [->|Hne].
  - apply andb_true_iff in Hzs as [Hzs H3].
    apply andb_true_iff in Hzs as [H1 H2].
    exists e. split; [done|]. split.
    + intros ->. done.
    + apply Z.ltb_lt in H2. pose proof (rfind_bounds "." e).
      split; [lia|]. by destruct (PyStr.contains "/" e).
  - exfalso.
    destruct a as [[] [] [] [] [] [] [] []]; done.
Qed.

Lemma compr_suffix_nonempty : zs <> "".
Proof using Hzs. by destruct compr_suffix_shape as (e & -> & _). Qed.

Lemma name_suffix_compr b : b <> "" -> name_suffix (b +:+ zs) = zs.
Proof using Hzs.
  intros. destruct compr_suffix_shape as (e & -> & ? & ? & _).
  by apply name_suffix_dot.
Qed.

Lemma stem_compr b : b <> "" -> stem (b +:+ zs) = b.
Proof using Hzs.
  intros. destruct compr_suffix_shape as (e & -> & ? & ? & _).
  by apply stem_dot.
Qed.

Lemma name_suffix_csv_compr b :
  b <> "" -> name_suffix (b +:+ ".csv" +:+ zs) = zs.
Proof using Hzs.
  intros. rewrite <- str_app_assoc.
  by apply name_suffix_compr, str_app_nonempty_l.
Qed.

Lemma stem_csv_compr b : b <> "" -> stem (b +:+ ".csv" +:+ zs) = b +:+ ".csv".
Proof using Hzs.
  intros. rewrite <- str_app_assoc. by apply stem_compr, str_app_nonempty_l.
Qed.

(** [with_suffix] for the two suffixes the constructor ends with. *)
Lemma with_suffix_canonical p compress :
  with_suffix p (canonical zs compress) =
    if String.eqb (name p) "" then Raise ValueError
    else Ok (with_name p (stem (name p) +:+ canonical zs compress)).
Proof using Hzs.
  unfold with_suffix.
  destruct compr_suffix_shape as (e & -> & _ & _ & Hslash).
  destruct compress; simpl; rewrite ?Hslash;
    destruct (String.eqb (name p) ""); by rewrite ?name_with_suffix_stem.
Qed.

(** ** The stripping loop *)

Lemma strippable_suffix nm : strippable zs nm = true -> name_suffix nm <> "".
Proof using Hzs.
  unfold strippable. intros H E. rewrite E in H.
  apply orb_true_iff in H as [H|H]; [done|].
  apply String.eqb_eq in H. by apply compr_suffix_nonempty.
Qed.

Lemma strippable_nonempty nm : strippable zs nm = true -> nm <> "".
Proof using Hzs. intros H ->. by apply strippable_suffix in H. Qed.

Lemma strippable_empty : strippable zs "" = false.
Proof using Hzs.
  destruct (strippable zs "") eqn:E; [|done].
  by apply strippable_nonempty in E.
Qed.

(** The fuel does not matter once it covers the length of the name. *)
Lemma strip_fuel_irrelevant fuel1 : forall fuel2 nm,
  String.length nm <= fuel1 -> String.length nm <= fuel2 ->
  strip_fuel zs fuel1 nm = strip_fuel zs fuel2 nm.
Proof using Hzs.
  induction fuel1 as [|fuel1 IH]; intros fuel2 nm H1 H2.
  - apply Nat.le_0_r, str_length_zero in H1 as ->.
    destruct fuel2; simpl; by rewrite strippable_empty.
  - destruct fuel2 as [|fuel2].
    + apply Nat.le_0_r, str_length_zero in H2 as ->.
      simpl. by rewrite strippable_empty.
    + simpl. destruct (strippable zs nm) eqn:E; [|done].
      apply strippable_suffix, stem_shorter in E.
      apply IH; lia.
Qed.

Lemma strip_fuel_enough fuel nm :
  String.length nm <= fuel -> strip_fuel zs fuel nm = strip zs nm.
Proof using Hzs. intros H. by apply strip_fuel_irrelevant. Qed.

Lemma strip_done nm : strippable zs nm = false -> strip zs nm = nm.
Proof.
  intros H. unfold strip. destruct (String.length nm); simpl; by rewrite H.
Qed.

Lemma strip_step nm :
  strippable zs nm = true -> strip zs nm = strip zs (stem nm).
Proof using Hzs.
  intros H. unfold strip at 1.
  pose proof (stem_shorter nm (strippable_suffix nm H)) as Hlt.
  destruct (String.length nm) as [|n] eqn:E; [lia|].
  simpl. rewrite H. apply strip_fuel_enough. lia.
Qed.

(** Induction along the loop: a property of names that holds when nothing
    is stripped, and is carried back over one stripping, holds of every
    name together with its stripped form. *)
Lemma strip_ind (P : string -> string -> Prop) :
  (forall nm, strippable zs nm = false -> P nm nm) ->
  (forall nm, strippable zs nm = true ->
              P (stem nm) (strip zs (stem nm)) -> P nm (strip zs (stem nm))) ->
  forall nm, P nm (strip zs nm).
Proof using Hzs.
  intros Hdone Hstep nm.
  remember (String.length nm) as n eqn:En.
  revert nm En. induction (lt_wf n) as [n _ IH]. intros nm ->.
  destruct (strippable zs nm) eqn:E.
  - rewrite strip_step by done. apply Hstep; [done|].
    apply (IH (String.length (stem nm))); [|done].
    by apply stem_shorter, strippable_suffix.
  - rewrite strip_done by done. by apply Hdone.
Qed.

Lemma strip_not_strippable nm : strippable zs (strip zs nm) = false.
Proof using Hzs. by apply (strip_ind (fun _ r => strippable zs r = false)). Qed.

Lemma strip_le nm : String.length (strip zs nm) <= String.length nm.
Proof using Hzs.
  apply (strip_ind (fun nm r => String.length r <= String.length nm)).
  - done.
  - intros nm' _ H. pose proof (stem_le nm'). lia.
Qed.

Lemma strip_nonempty nm : nm <> "" -> strip zs nm <> "".
Proof using Hzs.
  apply (strip_ind (fun nm r => nm <> "" -> r <> "")).
  - done.
  - intros nm' _ H Hne. by apply H, stem_nonempty.
Qed.

Lemma strip_empty_iff nm : strip zs nm = "" <-> nm = "".
Proof using Hzs.
  split.
  - intros H. destruct (decide (nm = "")) as [|Hne]; [done|].
    by apply strip_nonempty in Hne.
  - intros ->. apply strip_done, strippable_empty.
Qed.

(** The loop of the constructor, run with fuel enough, ends, raises
    nothing, and leaves the path with its name stripped. *)
Lemma strip_loop_spec fuel : forall p,
  String.length (name p) <= fuel ->
  Csv.strip_loop fuel ".csv" zs p =
    Ok (if strippable zs (name p)
        then with_name p (strip zs (name p)) else p).
Proof using Hzs.
  induction fuel as [|fuel IH]; intros p Hlen.
  - apply Nat.le_0_r, str_length_zero in Hlen.
    unfold Csv.strip_loop.
    change (String.eqb (suffix p) ".csv" || String.eqb (suffix p) zs)
      with (strippable zs (name p)).
    destruct (strippable zs (name p)) eqn:E; [|done].
    by apply strippable_nonempty in E.
  - simpl.
    change (String.eqb (suffix p) ".csv" || String.eqb (suffix p) zs)
      with (strippable zs (name p)).
    destruct (strippable zs (name p)) eqn:E; [|done].
    rewrite with_suffix_empty by by apply strippable_nonempty.
    pose proof (stem_shorter _ (strippable_suffix _ E)) as Hlt.
    simpl. rewrite IH by (rewrite name_with_name; lia).
    rewrite name_with_name, with_name_with_name, (strip_step (name p)) by done.
    destruct (strippable zs (stem (name p))) eqn:E'; [done|].
    by rewrite strip_done.
Qed.

Lemma strip_loop_name fuel p :
  String.length (name p) <= fuel ->
  exists p0, Csv.strip_loop fuel ".csv" zs p = Ok p0
             /\ name p0 = strip zs (name p)
             /\ forall nm, with_name p0 nm = with_name p nm.
Proof using Hzs.
  intros H. rewrite strip_loop_spec by done.
  destruct (strippable zs (name p)) eqn:E.
  - eexists; split; [done|]. split; [apply name_with_name|].
    intros. apply with_name_with_name.
  - eexists; split; [done|]. by rewrite strip_done.
Qed.

(** The constructor computes [Normal.replaced]. *)
Lemma new_with_replaced p compress :
  path_result (Csv.new_with p compress zs) = replaced zs p compress.
Proof using Hzs.
  unfold Csv.new_with, Csv.init, replaced.
  destruct (strip_loop_name (S (String.length (name p))) p)
    as (p0 & -> & Hn & Hw); [lia|].
  change (if String.eqb (suffix p) zs then true else compress)
    with (compressing zs (name p) compress).
  pose proof (with_suffix_canonical p0 true) as Ht.
  pose proof (with_suffix_canonical p0 false) as Hf.
  unfold canonical in Ht, Hf. rewrite Hn, Hw in Ht, Hf.
  assert ((String.eqb (strip zs (name p)) "") = String.eqb (name p) "") as Hs.
  { destruct (String.eqb_spec (name p) "") as [E|E].
    - rewrite E, (proj2 (strip_empty_iff "")) by done. done.
    - destruct (String.eqb_spec (strip zs (name p)) "") as [E'|E']; [|done].
      destruct (E (proj1 (strip_empty_iff _) E')). }
  rewrite Hs in Ht, Hf.
  unfold mbind at 1, result_bind at 1. unfold canonical.
  destruct (compressing zs (name p) compress).
  - rewrite Ht. by destruct (String.eqb (name p) "").
  - rewrite Hf. by destruct (String.eqb (name p) "").
Qed.

(** ** The outcome of the constructor *)

Lemma new_with_ok p compress :
  name p <> "" ->
  exists c, Csv.new_with p compress zs = Ok c
    /\ Csv.csv_path c =
         with_name p (stem (strip zs (name p))
                      +:+ canonical zs (compressing zs (name p) compress)).
Proof using Hzs.
  intros H. apply path_result_ok. rewrite new_with_replaced. unfold replaced.
  by destruct (String.eqb_spec (name p) "").
Qed.

Lemma new_with_ok_inv p compress c :
  Csv.new_with p compress zs = Ok c ->
  name p <> ""
  /\ Csv.csv_path c =
       with_name p (stem (strip zs (name p))
                    +:+ canonical zs (compressing zs (name p) compress)).
Proof using Hzs.
  intros H.
  assert (path_result (Csv.new_with p compress zs) = Ok (Csv.csv_path c)) as Hp
    by by rewrite H.
  rewrite new_with_replaced in Hp. unfold replaced in Hp.
  destruct (String.eqb_spec (name p) ""); [done|].
  by injection Hp as <-.
Qed.

(** The constructor always ends: it yields an accessor, or raises the
    [ValueError] of [with_suffix] on a path without a final component. *)
Lemma new_with_terminates p compress :
  if String.eqb (name p) ""
  then Csv.new_with p compress zs = Raise ValueError
  else exists c, Csv.new_with p compress zs = Ok c.
Proof using Hzs.
  destruct (String.eqb_spec (name p) "") as [E|E].
  - pose proof (new_with_replaced p compress) as H. unfold replaced in H.
    rewrite E in H. simpl in H.
    destruct (Csv.new_with p compress zs) as [c|e|]; simpl in H; congruence.
  - destruct (new_with_ok p compress E) as (c & ? & _). by exists c.
Qed.

Lemma compressing_orb nm compress :
  compressing zs nm compress = compress || String.eqb (name_suffix nm) zs.
Proof.
  unfold compressing.
  destruct (String.eqb (name_suffix nm) zs), compress; done.
Qed.

Lemma suffix_canonical p b compress :
  b <> "" ->
  suffix (with_name p (b +:+ canonical zs compress)) =
    if compress then zs else ".csv".
Proof using Hzs.
  intros H. unfold suffix. rewrite name_with_name.
  destruct compress; unfold canonical.
  - by apply name_suffix_csv_compr.
  - by apply name_suffix_csv.
Qed.

Lemma base_nonempty nm : nm <> "" -> stem (strip zs nm) <> "".
Proof using Hzs. intros H. by apply stem_nonempty, strip_nonempty. Qed.

Lemma strippable_csv b : b <> "" -> strippable zs (b +:+ ".csv") = true.
Proof. intros H. unfold strippable. by rewrite name_suffix_csv. Qed.

Lemma strippable_csv_compr b :
  b <> "" -> strippable zs (b +:+ ".csv" +:+ zs) = true.
Proof using Hzs.
  intros H. unfold strippable.
  rewrite name_suffix_csv_compr, String.eqb_refl by done.
  apply orb_true_r.
Qed.

(** Stripping a canonical name gives back what the canonical suffix was
    put on, stripped. *)
Lemma strip_canonical b compress :
  b <> "" -> strip zs (b +:+ canonical zs compress) = strip zs b.
Proof using Hzs.
  intros H. destruct compress; unfold canonical.
  - rewrite strip_step, stem_csv_compr by by rewrite ?strippable_csv_compr.
    by rewrite strip_step, stem_csv by by rewrite ?strippable_csv.
  - by rewrite strip_step, stem_csv by by rewrite ?strippable_csv.
Qed.

(** The canonical suffix tells the constructor again what was settled,
    unless the compression suffix is [".csv"] itself. *)
Lemma compressing_canonical b nm flag :
  b <> "" -> zs <> ".csv" ->
  compressing zs (b +:+ canonical zs (compressing zs nm flag)) flag
  = compressing zs nm flag.
Proof using Hzs.
  intros H Hcsv. destruct (compressing zs nm flag) eqn:E;
    unfold canonical, compressing.
  - by rewrite name_suffix_csv_compr, String.eqb_refl.
  - rewrite name_suffix_csv by done.
    destruct (String.eqb_spec ".csv" zs) as [<-|_]; [done|].
    unfold compressing in E.
    by destruct (String.eqb (name_suffix nm) zs).
Qed.

Lemma stem_strip_fix b : stem (strip zs b) = b <-> name_suffix b = "".
Proof using Hzs.
  split.
  - intros H. destruct (decide (name_suffix b = "")) as [|Hs]; [done|].
    exfalso. apply (f_equal String.length) in H.
    pose proof (stem_shorter b Hs) as Hlt.
    pose proof (stem_le (strip zs b)) as Hle.
    destruct (strippable zs b) eqn:E.
    + rewrite strip_step in H, Hle by done.
      pose proof (strip_le (stem b)). lia.
    + rewrite strip_done in H by done. lia.
  - intros H. rewrite strip_done; [by apply stem_no_suffix|].
    destruct (strippable zs b) eqn:E; [|done].
    by apply strippable_suffix in E.
Qed.

(** Building an accessor from the path of an accessor. *)
Lemma new_with_again p compress c :
  zs <> ".csv" ->
  Csv.new_with p compress zs = Ok c ->
  path_result (Csv.new_with (Csv.csv_path c) compress zs) =
    Ok (with_name p (stem (strip zs (stem (strip zs (name p))))
                     +:+ canonical zs (compressing zs (name p) compress))).
Proof using Hzs.
  intros Hcsv H. apply new_with_ok_inv in H as [Hne ->].
  pose proof (base_nonempty _ Hne) as Hb.
  rewrite new_with_replaced. unfold replaced.
  rewrite name_with_name, with_name_with_name.
  destruct (String.eqb_spec
              (stem (strip zs (name p))
               +:+ canonical zs (compressing zs (name p) compress)) "")
    as [E|_].
  - by apply str_app_nonempty_l in E.
  - by rewrite compressing_canonical, strip_canonical.
Qed.

(** ** The claims on the path *)

(** C2.  A path whose final suffix is the compression suffix makes an
    accessor whatever the [compress] flag says, and its [csv_path] carries
    the compression suffix: its pathlib suffix is the compression suffix
    and its text ends in [".csv"] followed by it, [".csv.zip"] by default. *)
Theorem compr_suffix_forces_compression p compress :
  suffix p = zs ->
  exists c, Csv.new_with p compress zs = Ok c
    /\ suffix (Csv.csv_path c) = zs
    /\ PyStr.endswith (str (Csv.csv_path c)) (".csv" +:+ zs) = true.
Proof using Hzs.
  intros Hzip.
  assert (name p <> "") as Hne.
  { apply suffix_name_nonempty. rewrite Hzip. apply compr_suffix_nonempty. }
  destruct (new_with_ok p compress Hne) as (c & Hc & Hq).
  exists c. split; [done|]. rewrite Hq.
  assert (compressing zs (name p) compress = true) as ->.
  { unfold compressing. fold (suffix p). by rewrite Hzip, String.eqb_refl. }
  split.
  - by apply (suffix_canonical p _ true), base_nonempty.
  - apply (str_endswith p _ (".csv" +:+ zs)).
Qed.

(** C5.  Whenever the constructor yields an accessor, its [csv_path] ends
    in [".csv"] if compression is off, and in [".csv"] followed by the
    compression suffix, [".csv.zip"] by default, if compression is on, be
    it asked for by the flag or forced by the suffix of the path given. *)
Theorem csv_path_ends_in_canonical_suffix p compress c :
  Csv.new_with p compress zs = Ok c ->
  if compress || String.eqb (suffix p) zs
  then suffix (Csv.csv_path c) = zs
       /\ PyStr.endswith (str (Csv.csv_path c)) (".csv" +:+ zs) = true
  else suffix (Csv.csv_path c) = ".csv"
       /\ PyStr.endswith (str (Csv.csv_path c)) ".csv" = true.
Proof using Hzs.
  intros H. apply new_with_ok_inv in H as [Hne ->].
  unfold suffix at 1. rewrite <- compressing_orb.
  pose proof (base_nonempty _ Hne) as Hb.
  destruct (compressing zs (name p) compress).
  - split; [by apply (suffix_canonical p _ true)|].
    apply (str_endswith p _ (".csv" +:+ zs)).
  - split; [by apply (suffix_canonical p _ false)|].
    apply (str_endswith p _ ".csv").
Qed.

(** C3, as the code has it.  The constructor strips the final suffixes
    equal to [".csv"] or to the compression suffix one after the other, and
    then puts the canonical suffix ([".csv"], followed by the compression
    suffix when compressing) in the place of the suffix that is left, if
    any ([Normal.replaced]); it raises [ValueError] on a path without a
    final component.  Only when no suffix is left after stripping is the
    canonical suffix appended ([Normal.appended]).  With the defaults,
    [data/table.csv] gives [data/table.csv] without compression and
    [data/table.csv.zip] with it. *)
Theorem csv_path_strip_then_replace p compress :
  path_result (Csv.new_with p compress zs) = replaced zs p compress
  /\ (name_suffix (strip zs (name p)) = "" ->
      path_result (Csv.new_with p compress zs) = appended zs p compress)
  /\ path_result (Csv.new (rel ["data"; "table.csv"]) false)
     = Ok (rel ["data"; "table.csv"])
  /\ path_result (Csv.new (rel ["data"; "table.csv"]) true)
     = Ok (rel ["data"; "table.csv.zip"]).
Proof using Hzs.
  split; [apply new_with_replaced|]. split; [|by split].
  intros H. rewrite new_with_replaced. unfold replaced, appended.
  by rewrite stem_no_suffix.
Qed.

(** C4, as the code has it.  The derived path depends on the path, the
    flag and the suffixes alone, not on the logger handed in; and deriving
    again from the derived path, with the same flag, gives the same path
    exactly when the name that stripping and removing the last suffix
    leaves has no suffix of its own. *)
Theorem csv_path_deterministic_fixpoint_iff p compress :
  zs <> ".csv" ->
  (forall fuel log1 log2 csv_suffix compr_suffix,
      path_result (Csv.init fuel p compress log1 csv_suffix compr_suffix)
      = path_result (Csv.init fuel p compress log2 csv_suffix compr_suffix))
  /\ (forall c,
        Csv.new_with p compress zs = Ok c ->
        path_result (Csv.new_with (Csv.csv_path c) compress zs)
        = Ok (Csv.csv_path c)
        <-> name_suffix (stem (strip zs (name p))) = "").
Proof using Hzs.
  intros Hcsv. split.
  - intros fuel log1 log2 cs cz. unfold Csv.init.
    destruct (Csv.strip_loop fuel cs cz p) as [p0| |]; simpl; [|done..].
    destruct (if String.eqb (suffix p) cz then true else compress);
      by destruct (with_suffix p0 _).
  - intros c H. rewrite (new_with_again p compress c Hcsv H).
    apply new_with_ok_inv in H as [Hne ->].
    rewrite <- stem_strip_fix. split.
    + intros E. injection E as E. apply app_inj_tail in E as [_ E].
      by apply str_app_inv_tail in E.
    + by intros ->.
Qed.

End Compression.

(** Without the shape of a suffix the loop need not end: with the empty
    compression suffix, a name without suffix is "stripped" for ever. *)
Lemma init_empty_compr_suffix_loops fuel :
  Csv.init fuel (rel ["a"]) false None ".csv" "" = Timeout.
Proof.
  unfold Csv.init.
  assert (Csv.strip_loop fuel ".csv" "" (rel ["a"]) = Timeout) as ->; [|done].
  induction fuel as [|fuel IH]; [done|].
  simpl. exact IH.
Qed.

(** ** The claims on the path, at concrete paths *)

Lemma compr_suffix_forces_compression_witness :
  exists c, Csv.new (rel ["archive"; "table.zip"]) false = Ok c
    /\ suffix (Csv.csv_path c) = ".zip"
    /\ PyStr.endswith (str (Csv.csv_path c)) ".csv.zip" = true.
Proof.
  apply (compr_suffix_forces_compression ".zip" eq_refl
           (rel ["archive"; "table.zip"]) false).
  reflexivity.
Defined.

Lemma csv_path_ends_in_canonical_suffix_witness :
  suffix (rel ["data"; "table.csv.gzip"]) = ".gzip"
  /\ PyStr.endswith (str (rel ["data"; "table.csv.gzip"])) ".csv.gzip" = true.
Proof.
  apply (csv_path_ends_in_canonical_suffix ".gzip" eq_refl
           (rel ["data"; "table.csv"]) true
           (Csv.mk (rel ["data"; "table.csv.gzip"])
              [Debug "CSV file without suffix is %s, Compress %s"
                 [ArgPath (rel ["data"; "table"]); ArgBool true];
               Debug "CSV file is %s"
                 [ArgPath (rel ["data"; "table.csv.gzip"])]])).
  reflexivity.
Defined.

Lemma csv_path_strip_then_replace_witness :
  path_result (Csv.new (rel ["data"; "table.csv.zip"]) false)
  = Ok (rel ["data"; "table.csv.zip"]).
Proof.
  unfold Csv.new.
  rewrite (proj1 (proj2 (csv_path_strip_then_replace ".zip" eq_refl
                           (rel ["data"; "table.csv.zip"]) false)));
    reflexivity.
Defined.

(** C3, as the specification words it, fails: with a suffix other than
    [".csv"] and [".zip"] nothing is stripped, and the constructor answers
    [results.csv] where appending would give [results.v1.csv]. *)
Lemma csv_path_not_appended :
  path_result (Csv.new (rel ["results.v1"]) false) = Ok (rel ["results.csv"])
  /\ Normal.appended ".zip" (rel ["results.v1"]) false
     = Ok (rel ["results.v1.csv"])
  /\ path_result (Csv.new (rel ["results.v1"]) false)
     <> Normal.appended ".zip" (rel ["results.v1"]) false.
Proof. by repeat split. Qed.

Lemma csv_path_deterministic_fixpoint_iff_witness :
  path_result (Csv.new (rel ["data"; "table.csv.zip"]) true)
  = Ok (rel ["data"; "table.csv.zip"]).
Proof.
  assert (".zip" <> ".csv") as Hne by discriminate.
  apply (proj2 (csv_path_deterministic_fixpoint_iff ".zip" eq_refl
                  (rel ["data"; "table.zip"]) true Hne)
           (Csv.mk (rel ["data"; "table.csv.zip"])
              [Debug "CSV file without suffix is %s, Compress %s"
                 [ArgPath (rel ["data"; "table"]); ArgBool true];
               Debug "CSV file is %s"
                 [ArgPath (rel ["data"; "table.csv.zip"])]])
           eq_refl).
  reflexivity.
Defined.

(** C4, as stated, fails: [a.b.c] gives [a.b.csv], and [a.b.csv] gives
    [a.csv]. *)
Lemma csv_path_not_fixpoint :
  exists c,
    Csv.new (rel ["a.b.c"]) false = Ok c
    /\ Csv.csv_path c = rel ["a.b.csv"]
    /\ path_result (Csv.new (Csv.csv_path c) false) = Ok (rel ["a.csv"])
    /\ path_result (Csv.new (Csv.csv_path c) false) <> Ok (Csv.csv_path c).
Proof. eexists. by repeat split. Qed.

(** * Properties of [Csv.read] *)

Section CsvRead.

Import Reading.

Context {V Dtype FS : Type}.
Variable read_csv :
  FS -> PurePath -> index_col -> option Dtype -> option nat -> string ->
  result (DataFrame V).
Variable np_round : Index V -> Z -> result (Index V).

Variables (fs : FS) (self : Csv.t) (dtype : option Dtype).

Let preview (sep : string) : result (DataFrame V) :=
  read_csv fs (Csv.csv_path self) (IdxInt 0) dtype (Some 2) sep.

Let full (index_cols : index_col) (sep : string) : result (DataFrame V) :=
  read_csv fs (Csv.csv_path self) index_cols dtype None sep.

(** The reading proper, once the delimiter is settled. *)
Lemma read_with_delimiter idx_round_prec index_cols sep tr :
  Csv.traced_bind
    (Csv.pd_read_csv read_csv fs self index_cols dtype None sep)
    (fun csv =>
       match idx_round_prec with
       | Some prec =>
           Csv.traced_bind (Csv.lift (np_round (index csv) prec))
             (fun idx =>
                Csv.traced_ret
                  (set_index csv (set_name idx (idx_name (index csv)))))
       | None => Csv.traced_ret csv
       end) tr
  = (rounded np_round idx_round_prec (full index_cols sep),
     tr ++ [full_call index_cols sep]).
Proof.
  unfold Csv.traced_bind, Csv.pd_read_csv, rounded, full, full_call.
  destruct (read_csv _ _ _ _ _ _) as [csv|e|]; simpl; [|done..].
  destruct idx_round_prec as [prec|]; [|done].
  unfold Csv.lift, Csv.traced_ret. simpl.
  by destruct (np_round _ _).
Qed.

(** Every run of [read]: its outcome and the calls of [read_csv] it makes,
    by the outcomes of the previews.  An exception of a preview ends [read]
    at that call. *)
Lemma read_outcome idx_round_prec index_cols tr :
  Csv.read read_csv np_round fs self dtype idx_round_prec index_cols tr =
    match preview "," with
    | Ok c =>
        if (0 <? shape1 c)%nat
        then (rounded np_round idx_round_prec (full index_cols ","),
              tr ++ [preview_call ","; full_call index_cols ","])
        else
          match preview TAB with
          | Ok _ =>
              (rounded np_round idx_round_prec (full index_cols TAB),
               tr ++ [preview_call ","; preview_call TAB;
                      full_call index_cols TAB])
          | Raise e => (Raise e, tr ++ [preview_call ","; preview_call TAB])
          | Timeout => (Timeout, tr ++ [preview_call ","; preview_call TAB])
          end
    | Raise e => (Raise e, tr ++ [preview_call ","])
    | Timeout => (Timeout, tr ++ [preview_call ","])
    end.
Proof.
  unfold Csv.read. unfold Csv.traced_bind at 1.
  unfold Csv.sniff, Csv.traced_bind at 1, Csv.pd_read_csv at 1.
  fold (preview ","). fold (preview_call ",").
  destruct (preview ",") as [c|e|]; [|done..].
  destruct (0 <? shape1 c)%nat.
  - unfold Csv.traced_ret at 1.
    rewrite read_with_delimiter. by rewrite <- List.app_assoc.
  - unfold Csv.traced_bind at 1, Csv.pd_read_csv at 1.
    fold (preview TAB). fold (preview_call TAB).
    destruct (preview TAB) as [c'|e|]; rewrite <- ?List.app_assoc; [|done..].
    assert ((if (0 <? shape1 c')%nat
             then Csv.traced_ret (Some TAB)
             else Csv.traced_ret (Some TAB))
            = Csv.traced_ret (Some TAB)) as ->
      by by destruct (0 <? shape1 c')%nat.
    unfold Csv.traced_ret at 1.
    rewrite read_with_delimiter. by rewrite <- List.app_assoc.
Qed.

(** C1.  [read] previews two rows with [","] first.  If that preview has
at least one column, the file is read with [","] and the tab is never
tried.  If it has none, [read] previews with the tab and then reads the
file with the tab, whatever the tab preview shows: there is no further
fallback.  So a tab-delimited file whose preview has no column under
[","] is read with the tab. *)
Theorem read_sniffs_comma_then_tab idx_round_prec index_cols tr c :
  preview "," = Ok c ->
  (0 < shape1 c ->
   Csv.read read_csv np_round fs self dtype idx_round_prec index_cols tr =
     (rounded np_round idx_round_prec (full index_cols ","),
      tr ++ [preview_call ","; full_call index_cols ","]))
  /\ (shape1 c = 0 ->
      forall c', preview TAB = Ok c' ->
      Csv.read read_csv np_round fs self dtype idx_round_prec index_cols tr =
        (rounded np_round idx_round_prec (full index_cols TAB),
         tr ++ [preview_call ","; preview_call TAB; full_call index_cols TAB])).
Proof.
  intros Hc. rewrite read_outcome, Hc. split.
  - intros H. apply Nat.ltb_lt in H. by rewrite H.
  - intros H c' Hc'. by rewrite H, Hc'.
Qed.

(** [write] returns the path of the accessor whenever [to_csv] returns. *)
Lemma write_returns_csv_path
    (to_csv : FS -> DataFrame V -> PurePath -> string -> result FS)
    db float_format fs' q :
  Csv.write to_csv fs self db float_format = Ok (fs', q) ->
  q = Csv.csv_path self
  /\ to_csv fs db (Csv.csv_path self) float_format = Ok fs'.
Proof.
  unfold Csv.write. destruct (to_csv _ _ _ _) as [fs''| |]; simpl; [|done..].
  by intros [= <- <-].
Qed.

Lemma rounded_none (r : result (DataFrame V)) csv :
  rounded np_round None r = Ok csv -> r = Ok csv.
Proof. by destruct r. Qed.

(** C8.  When [read] without a precision returns a frame, that frame is
what the full [read_csv] returned, its index as parsed; and [read] with
the precision [prec] then rounds the index of that frame with [np.round],
keeps the name the index had, and leaves columns and rows alone.  It
raises what [np.round] raises on an index that is not numeric. *)
Theorem read_rounds_index_keeps_name index_cols tr csv tr' :
  Csv.read read_csv np_round fs self dtype None index_cols tr = (Ok csv, tr') ->
  (exists sep, full index_cols sep = Ok csv)
  /\ forall prec,
       Csv.read read_csv np_round fs self dtype (Some prec) index_cols tr =
         (idx ← np_round (index csv) prec;
          Ok (mkFrame (mkIndex (idx_name (index csv)) (idx_values idx))
                (columns csv) (rows csv)),
          tr').
Proof.
  intros H. rewrite read_outcome in H.
  assert (forall sep tr0,
            (rounded np_round None (full index_cols sep), tr0) = (Ok csv, tr') ->
            (exists sep, full index_cols sep = Ok csv)
            /\ forall prec,
                 (rounded np_round (Some prec) (full index_cols sep), tr0) =
                   (idx ← np_round (index csv) prec;
                    Ok (mkFrame (mkIndex (idx_name (index csv)) (idx_values idx))
                          (columns csv) (rows csv)),
                    tr')) as Hsep.
  { intros sep tr0 [= Hr <-]. apply rounded_none in Hr.
    split; [by exists sep|]. intros prec. by rewrite Hr. }
  destruct (preview ",") as [c|e|] eqn:Hc; [|done..].
  destruct (0 <? shape1 c)%nat eqn:Hcols.
  - destruct (Hsep _ _ H) as [Hex Hround]. split; [done|].
    intros prec. by rewrite read_outcome, Hc, Hcols.
  - destruct (preview TAB) as [c'|e|] eqn:Hc'; [|done..].
    destruct (Hsep _ _ H) as [Hex Hround]. split; [done|].
    intros prec. by rewrite read_outcome, Hc, Hcols, Hc'.
Qed.

End CsvRead.

Lemma read_sniffs_comma_then_tab_witness :
  Csv.read Toy.read_csv Toy.np_round true Toy.accessor None None (IdxInt 0) []
  = (Ok Toy.table,
     [Reading.preview_call ","; Reading.preview_call TAB;
      Reading.full_call (IdxInt 0) TAB]).
Proof.
  exact (proj2 (read_sniffs_comma_then_tab Toy.read_csv Toy.np_round
                  true Toy.accessor None None (IdxInt 0) []
                  Toy.one_field eq_refl)
           eq_refl Toy.table eq_refl).
Defined.

Lemma read_rounds_index_keeps_name_witness :
  Csv.read Toy.read_csv Toy.np_round false Toy.accessor None (Some (-2)%Z)
    (IdxInt 0) []
  = (Ok (mkFrame (mkIndex (Some "time") [1200; 5600]%Z) ["x"] [[10]; [20]]%Z),
     [Reading.preview_call ","; Reading.full_call (IdxInt 0) ","]).
Proof.
  exact (proj2 (read_rounds_index_keeps_name Toy.read_csv Toy.np_round
                  false Toy.accessor None (IdxInt 0) []
                  Toy.table
                  [Reading.preview_call ","; Reading.full_call (IdxInt 0) ","]
                  eq_refl)
           (-2)%Z).
Defined.

(** * Properties of [set_params] *)

Section SetParams.

Import Params.

Context {W : Type}.
Implicit Types (self : ExampleCnnMixedPipe.t W) (parameters : gmap string pyval).

(** Every run of [set_params], by what the dictionary holds. *)
Lemma set_params_outcome self parameters :
  ExampleCnnMixedPipe.set_params self parameters =
    match parameters !! "Estimator" with
    | None => (self, Raise (KeyError "Estimator"))
    | Some (PyDict est) =>
        match est !! "is_binary" with
        | Some v =>
            (ExampleCnnMixedPipe.mk (ExampleCnnMixedPipe.work_dir self)
               (debug (ExampleCnnMixedPipe.log self) "Parameters passed: %s" [])
               (_Model.set_is_binary (ExampleCnnMixedPipe.estimator self) v),
             Ok ())
        | None => (self, Raise (KeyError "is_binary"))
        end
    | Some _ => (self, Raise TypeError)
    end.
Proof.
  unfold ExampleCnnMixedPipe.set_params, dict_getitem.
  destruct (parameters !! "Estimator") as [[| | | | |est]|]; simpl; try done.
  unfold dict_getitem. by destruct (est !! "is_binary").
Qed.

Lemma key_path_lookup parameters v :
  key_path parameters v <->
  match parameters !! "Estimator" with
  | Some (PyDict est) => est !! "is_binary" = Some v
  | _ => False
  end.
Proof.
  unfold key_path. split.
  - by intros (est & -> & H).
  - destruct (parameters !! "Estimator") as [[| | | | |est]|]; try done.
    intros H. by exists est.
Qed.

(** C6.  When the key path ["Estimator"], ["is_binary"] exists,
    [set_params] returns and the estimator's [is_binary] is the value found
    there, whatever that value is, the rest of the estimator being as
    before.  The call raises exactly when the key path does not exist; what
    it raises is then a [KeyError] or the [TypeError] of subscripting a value
    that is no dictionary, and the pipeline, [is_binary] included, is left
    as it was. *)
Theorem set_params_sets_or_raises self parameters :
  (forall v, key_path parameters v ->
     exists self',
       ExampleCnnMixedPipe.set_params self parameters = (self', Ok ())
       /\ _Model.is_binary (ExampleCnnMixedPipe.estimator self') = v
       /\ ExampleCnnMixedPipe.estimator self'
          = _Model.set_is_binary (ExampleCnnMixedPipe.estimator self) v)
  /\ ((exists e, (ExampleCnnMixedPipe.set_params self parameters).2 = Raise e)
      <-> ~ exists v, key_path parameters v)
  /\ (forall e,
        (ExampleCnnMixedPipe.set_params self parameters).2 = Raise e ->
        lookup_error e
        /\ (ExampleCnnMixedPipe.set_params self parameters).1 = self).
Proof.
  rewrite set_params_outcome. repeat split.
  - intros v Hv. apply key_path_lookup in Hv.
    destruct (parameters !! "Estimator") as [[| | | | |est]|]; try done.
    rewrite Hv. by eexists.
  - intros [e He] [v Hv]. apply key_path_lookup in Hv.
    destruct (parameters !! "Estimator") as [[| | | | |est]|]; try done.
    by rewrite Hv in He.
  - intros Hno.
    destruct (parameters !! "Estimator") as [[| | | | |est]|] eqn:E;
      simpl; try by eexists.
    destruct (est !! "is_binary") as [v|] eqn:E'; simpl; [|by eexists].
    destruct Hno. exists v, est. by rewrite E.
  - destruct (parameters !! "Estimator") as [[| | | | |est]|];
      simpl in *; try (injection H as <-); try by right.
    + destruct (est !! "is_binary"); simpl in *; [done|].
      injection H as <-. left. by eexists.
    + left. by eexists.
  - destruct (parameters !! "Estimator") as [[| | | | |est]|]; try done.
    by destruct (est !! "is_binary").
Qed.

End SetParams.

Lemma set_params_sets_or_raises_witness :
  exists self' : ExampleCnnMixedPipe.t (),
    ExampleCnnMixedPipe.set_params (ExampleCnnMixedPipe.init (rel []) None)
      {[ "Estimator" := PyDict {[ "is_binary" := PyBool true ]} ]}
    = (self', Ok ())
    /\ _Model.is_binary (ExampleCnnMixedPipe.estimator self') = PyBool true
    /\ ExampleCnnMixedPipe.estimator self'
       = _Model.set_is_binary
           (ExampleCnnMixedPipe.estimator
              (ExampleCnnMixedPipe.init (rel []) None)) (PyBool true).
Proof.
  apply (proj1 (set_params_sets_or_raises
                  (ExampleCnnMixedPipe.init (rel []) None)
                  {[ "Estimator" := PyDict {[ "is_binary" := PyBool true ]} ]})
           (PyBool true)).
  exists {[ "is_binary" := PyBool true ]}. split; reflexivity.
Defined.

(** * Properties of [_Model.fit] and [_Model.predict] *)

Section ArgmaxFacts.

Context {A : Type}.
Variable ltb : A -> A -> bool.

Lemma argmax_from_lt (row : list A) : forall best ibest i,
  ibest < i -> argmax_from ltb best ibest i row < i + length row.
Proof.
  induction row as [|a row IH]; intros best ibest i H; simpl.
  - lia.
  - destruct (ltb best a).
    + specialize (IH a i (S i)). lia.
    + specialize (IH best ibest (S i)). lia.
Qed.

Lemma argmax_lt (row : list A) : row <> [] -> argmax ltb row < length row.
Proof.
  destruct row as [|a row]; [done|]. intros _. simpl.
  pose proof (argmax_from_lt row a 0 1). lia.
Qed.

End ArgmaxFacts.

Section MapM.

Context {A B : Type}.

Lemma mapM_ok (f : A -> result B) (g : A -> B) (l : list A) :
  Forall (fun a => f a = Ok (g a)) l -> Sklearn.mapM f l = Ok (map g l).
Proof.
  induction 1 as [|a l Ha _ IH]; simpl; [done|]. by rewrite Ha, IH.
Qed.


Lemma mapM_ok_inv (f : A -> result B) (l : list A) l' :
  Sklearn.mapM f l = Ok l' -> Forall2 (fun a b => f a = Ok b) l l'.
Proof.
  revert l'. induction l as [|a l IH]; intros l' H; simpl in H.
  - injection H as <-. constructor.
  - destruct (f a) as [b| |] eqn:E; simpl in H; [|done..].
    destruct (Sklearn.mapM f l) as [bs| |]; simpl in H; [|done..].
    injection H as <-. constructor; [done|by apply IH].
Qed.

End MapM.

Section DecodeFacts.

Import Predicting.

Context {V : Type}.
Variable ltb : V -> V -> bool.
Variable is_finite : V -> bool.
Variable sum_is_zero : list V -> bool.

Lemma decode_in_vocabulary (row : list V) :
  length row = 4 ->
  decode ltb row ∈ ["Good"; "Acceptable"; "Marginal"; "Poor"].
Proof.
  clear is_finite sum_is_zero. intros H. unfold decode.
  assert (argmax ltb row < 4) as Hlt.
  { rewrite <- H. apply argmax_lt. by destruct row. }
  destruct (argmax ltb row) as [|[|[|[|k]]]]; simpl; [set_solver..|lia].
Qed.

(** The encoder, fitted on the vocabulary, holds its four categories in
    sorted order. *)
Lemma fit_vocabulary enc :
  Sklearn.categories_ (Sklearn.fit enc _Model.vocabulary) = Some [categories].
Proof. reflexivity. Qed.

(** One row of four scores, inverted over the four categories. *)
Lemma inverse_row_four (row : list V) :
  length row = 4 ->
  Sklearn.inverse_row ltb sum_is_zero [categories] row =
    if sum_is_zero row then Raise ValueError else Ok [decode ltb row].
Proof.
  intros H. by destruct row as [|a [|b [|c [|d [|]]]]].
Qed.

(** Rows of four scores, inverted one by one. *)
Lemma inverse_rows_four (X : list (list V)) :
  Forall (fun row => length row = 4) X ->
  Sklearn.mapM
    (fun row =>
       if (0 <? length row)%nat && (length row =? 4)%nat
       then Sklearn.inverse_row ltb sum_is_zero [categories] row
       else Raise ValueError) X
  = if forallb (fun row => negb (sum_is_zero row)) X
    then Ok (map (fun row => [decode ltb row]) X)
    else Raise ValueError.
Proof.
  induction 1 as [|row X Hrow _ IH]; [done|].
  cbn [Sklearn.mapM forallb map]. rewrite IH, Hrow, inverse_row_four by done.
  change ((0 <? 4)%nat && (4 =? 4)%nat) with true. cbv iota.
  destruct (sum_is_zero row); [done|]. simpl.
  by destruct (forallb _ X).
Qed.

Lemma scores_four (f : nat -> nat -> V) n :
  Forall (fun row => length row = 4) (scores f n 4).
Proof.
  apply Forall_forall. intros row Hrow.
  by apply list_elem_of_In, in_map_iff in Hrow as (i & <- & _).
Qed.

(** The fitted encoder on an array of four scores a row. *)
Lemma inverse_transform_four enc (X : list (list V)) :
  Sklearn.categories_ enc = Some [categories] ->
  Forall (fun row => length row = 4) X ->
  Sklearn.inverse_transform ltb is_finite sum_is_zero enc X =
    if decodable is_finite sum_is_zero X
    then Ok (map (fun row => [decode ltb row]) X)
    else Raise ValueError.
Proof.
  intros H HX. unfold Sklearn.inverse_transform, decodable. rewrite H.
  destruct X as [|row X]; [done|].
  change (sum_list (length <$> [categories])) with 4.
  destruct (Sklearn.all_finite is_finite (row :: X)); [|done].
  cbn [negb andb]. by rewrite inverse_rows_four.
Qed.

End DecodeFacts.

Section ModelFacts.

Import Predicting.

Context {V W : Type}.
Variables zero one : V.
Variable ltb : V -> V -> bool.
Variable is_finite : V -> bool.
Variable sum_is_zero : list V -> bool.
Variable encoder_error : list (list V) -> exn.
Variable keras_fit :
  Keras.Model -> ndarray V -> ndarray V -> _Model.target V ->
  forall (epochs batch_size : nat), result W.
Variable keras_forward :
  Keras.Model -> W -> ndarray V -> ndarray V -> result (nat -> nat -> V).

Implicit Types (self : _Model.t W) (x x_2d : ndarray V).

(** What a successful [fit] leaves behind. *)
Lemma fit_inv self x x_2d y self' :
  _Model.fit zero one encoder_error keras_fit self x x_2d y = Ok self' ->
  exists d w,
    last (shape x_2d) = Some d
    /\ _Model.model self' = Some (_Model.build self (tail (shape x)) d, w)
    /\ _Model.is_binary self' = _Model.is_binary self
    /\ _Model.labels self' = _Model.labels self
    /\ _Model.encoder self' =
         if truthy (_Model.is_binary self) then _Model.encoder self
         else Sklearn.fit (_Model.encoder self) (_Model.labels self).
Proof.
  unfold _Model.fit. intros H.
  destruct (last (shape x_2d)) as [d|]; [|done]. simpl in H.
  exists d.
  destruct (truthy (_Model.is_binary self)); simpl in H.
  - destruct (keras_fit _ _ _ _ _ _) as [w| |]; [|done..].
    injection H as <-. by exists w.
  - destruct y as [y|y]; [|done].
    destruct (Sklearn.transform _ _ _ _) as [y'| |]; [|done..]. simpl in H.
    destruct (keras_fit _ _ _ _ _ _) as [w| |]; [|done..].
    injection H as <-. by exists w.
Qed.

Lemma build_output self input_dim input_dim_2d :
  _Model.labels self = _Model.vocabulary ->
  Keras.output (_Model.build self input_dim input_dim_2d) =
    if truthy (_Model.is_binary self)
    then Keras.Dense 1 Keras.Sigmoid
    else Keras.Dense 4 Keras.Softmax.
Proof. intros H. unfold _Model.build. simpl. by rewrite H. Qed.

(** [predict] with a network at hand that answers: the scores as they
    are in binary mode, the scores through the encoder otherwise. *)
Lemma predict_answered self net w x x_2d f :
  _Model.model self = Some (net, w) ->
  keras_forward net w x x_2d = Ok f ->
  _Model.predict ltb is_finite sum_is_zero keras_forward self x x_2d =
    if truthy (_Model.is_binary self)
    then Ok (_Model.Numeric (scores f (samples x) (Keras.output_units net)))
    else _Model.Labels <$>
           Sklearn.inverse_transform ltb is_finite sum_is_zero
             (_Model.encoder self)
             (scores f (samples x) (Keras.output_units net)).
Proof.
  intros Hm Hf. unfold _Model.predict, _Model.keras_predict.
  rewrite Hm. simpl. rewrite Hf. simpl.
  destruct (truthy (_Model.is_binary self)); simpl; [done|].
  by destruct (Sklearn.inverse_transform _ _ _ _ _).
Qed.

(** [predict] on an estimator that [fit] has left in the mode it was
    fitted in, when the network answers. *)
Lemma predict_fitted self net w x x_2d f :
  _Model.model self = Some (net, w) ->
  Keras.output net =
    (if truthy (_Model.is_binary self)
     then Keras.Dense 1 Keras.Sigmoid
     else Keras.Dense 4 Keras.Softmax) ->
  (truthy (_Model.is_binary self) = false ->
   Sklearn.categories_ (_Model.encoder self) = Some [categories]) ->
  keras_forward net w x x_2d = Ok f ->
  _Model.predict ltb is_finite sum_is_zero keras_forward self x x_2d =
    if truthy (_Model.is_binary self)
    then Ok (_Model.Numeric (map (fun i => [f i 0]) (seq 0 (samples x))))
    else if decodable is_finite sum_is_zero (scores f (samples x) 4)
         then Ok (_Model.Labels
                    (map (fun row => [decode ltb row])
                       (scores f (samples x) 4)))
         else Raise ValueError.
Proof.
  intros Hm Hout Henc Hf.
  rewrite (predict_answered self net w x x_2d f Hm Hf).
  unfold Keras.output_units. rewrite Hout.
  destruct (truthy (_Model.is_binary self)); [done|].
  rewrite (inverse_transform_four ltb is_finite sum_is_zero)
    by (by apply Henc || apply scores_four).
  by destruct (decodable _ _ _).
Qed.

(** After a successful [fit]: the network built, and what [predict]
    answers whenever the network does. *)
Lemma predict_after_fit self x x_2d y self' :
  _Model.labels self = _Model.vocabulary ->
  _Model.fit zero one encoder_error keras_fit self x x_2d y = Ok self' ->
  exists net w,
    _Model.model self' = Some (net, w)
    /\ _Model.is_binary self' = _Model.is_binary self
    /\ Keras.output net =
         (if truthy (_Model.is_binary self)
          then Keras.Dense 1 Keras.Sigmoid
          else Keras.Dense 4 Keras.Softmax)
    /\ (truthy (_Model.is_binary self) = false ->
        Sklearn.categories_ (_Model.encoder self') = Some [categories])
    /\ forall x' x_2d' f,
         keras_forward net w x' x_2d' = Ok f ->
         _Model.predict ltb is_finite sum_is_zero keras_forward self' x' x_2d'
         = if truthy (_Model.is_binary self)
           then Ok (_Model.Numeric
                      (map (fun i => [f i 0]) (seq 0 (samples x'))))
           else if decodable is_finite sum_is_zero (scores f (samples x') 4)
                then Ok (_Model.Labels
                           (map (fun row => [decode ltb row])
                              (scores f (samples x') 4)))
                else Raise ValueError.
Proof.
  intros Hl H. apply fit_inv in H as (d & w & _ & Hm & Hb & _ & Henc).
  exists (_Model.build self (tail (shape x)) d), w.
  pose proof (build_output self (tail (shape x)) d Hl) as Hout.
  assert (truthy (_Model.is_binary self) = false ->
          Sklearn.categories_ (_Model.encoder self') = Some [categories])
    as Hcat.
  { intros Ht. rewrite Henc, Ht, Hl. apply fit_vocabulary. }
  repeat split; [done..|]. intros x' x_2d' f Hf.
  rewrite <- Hb. eapply predict_fitted; rewrite ?Hb; done.
Qed.

End ModelFacts.

Section ModelClaims.

Import Predicting.

Context {V W : Type}.
Variables zero one : V.
Variable ltb : V -> V -> bool.
Variable is_finite : V -> bool.
Variable sum_is_zero : list V -> bool.
Variable encoder_error : list (list V) -> exn.
Variable keras_fit :
  Keras.Model -> ndarray V -> ndarray V -> _Model.target V ->
  forall (epochs batch_size : nat), result W.
Variable keras_forward :
  Keras.Model -> W -> ndarray V -> ndarray V -> result (nat -> nat -> V).

Implicit Types (self : _Model.t W) (x x_2d : ndarray V).


Lemma build_unset self input_dim d :
  truthy (_Model.is_binary self) = false ->
  _Model.build (_Model.set_is_binary self (PyBool false)) input_dim d
  = _Model.build self input_dim d.
Proof. intros H. unfold _Model.build. simpl. by rewrite H. Qed.


End ModelClaims.




(** * Further properties of the constructor of [Csv] *)

Section ConstructorOutcome.

Import Normal.

Variable zs : string.
Hypothesis Hzs : single_suffix zs = true.

(** With fuel for as many iterations as the name has characters, and any
    logger, the constructor computes [Normal.replaced]. *)
Lemma init_replaced fuel p compress log :
  String.length (name p) <= fuel ->
  path_result (Csv.init fuel p compress log ".csv" zs) = replaced zs p compress.
Proof using Hzs.
  intros Hfuel. unfold Csv.init, replaced.
  destruct (strip_loop_name zs Hzs fuel p Hfuel) as (p0 & -> & Hn & Hw).
  change (if String.eqb (suffix p) zs then true else compress)
    with (compressing zs (name p) compress).
  pose proof (with_suffix_canonical zs Hzs p0 true) as Ht.
  pose proof (with_suffix_canonical zs Hzs p0 false) as Hf.
  unfold canonical in Ht, Hf. rewrite Hn, Hw in Ht, Hf.
  assert (String.eqb (strip zs (name p)) "" = String.eqb (name p) "") as Hs.
  { destruct (String.eqb_spec (name p) "") as [E|E].
    - by rewrite E, (proj2 (strip_empty_iff zs Hzs "")).
    - destruct (String.eqb_spec (strip zs (name p)) "") as [E'|E']; [|done].
      destruct (E (proj1 (strip_empty_iff zs Hzs _) E')). }
  rewrite Hs in Ht, Hf.
  unfold mbind at 1, result_bind at 1. unfold canonical.
  destruct (compressing zs (name p) compress).
  - rewrite Ht. by destruct (String.eqb (name p) "").
  - rewrite Hf. by destruct (String.eqb (name p) "").
Qed.

(** X1.  The constructor always ends.  The loop runs at most as often as
    the name has characters: with that much fuel or more, and whatever the
    logger, the path is the one of [Csv.new_with].  The constructor raises
    [ValueError] exactly on a path without a final component (such as [.]
    or [/]), and returns an accessor on every other path. *)
Theorem constructor_outcome p compress :
  (forall fuel log,
     String.length (name p) <= fuel ->
     path_result (Csv.init fuel p compress log ".csv" zs)
     = path_result (Csv.new_with p compress zs))
  /\ (name p = "" <-> Csv.new_with p compress zs = Raise ValueError)
  /\ (name p <> "" <-> exists c, Csv.new_with p compress zs = Ok c).
Proof using Hzs.
  pose proof (new_with_terminates zs Hzs p compress) as H.
  split; [|split].
  - intros fuel log Hfuel.
    by rewrite init_replaced, new_with_replaced.
  - destruct (String.eqb_spec (name p) "") as [E|E]; split; try done.
    intros Hr. destruct H as [c Hc]. congruence.
  - destruct (String.eqb_spec (name p) "") as [E|E]; split; try done.
    intros [c Hc]. congruence.
Qed.



(** X4.  Spellings of one file.  A name carrying the compression suffix,
    alone or after [".csv"], is the same to the constructor as the bare
    name with [compress=True]; a name carrying [".csv"] is the same as the
    bare name with the same flag, provided the bare name does not itself
    end in the compression suffix. *)
Theorem equivalent_spellings p b compress :
  b <> "" -> zs <> ".csv" ->
  path_result (Csv.new_with (with_name p (b +:+ zs)) compress zs)
  = path_result (Csv.new_with (with_name p b) true zs)
  /\ path_result (Csv.new_with (with_name p (b +:+ ".csv" +:+ zs)) compress zs)
     = path_result (Csv.new_with (with_name p b) true zs)
  /\ (name_suffix b <> zs ->
      path_result (Csv.new_with (with_name p (b +:+ ".csv")) compress zs)
      = path_result (Csv.new_with (with_name p b) compress zs)).
Proof using Hzs.
  intros Hb Hcsv. rewrite !new_with_replaced by done. unfold replaced.
  rewrite !name_with_name, !with_name_with_name.
  assert (forall s t, s <> "" -> String.eqb (s +:+ t) "" = false) as Hne.
  { intros s t Hs. apply String.eqb_neq. by apply str_app_nonempty_l. }
  rewrite !Hne by done. apply String.eqb_neq in Hb as Hb'. rewrite Hb'.
  assert (compressing zs b true = true) as Htrue.
  { unfold compressing. by destruct (String.eqb (name_suffix b) zs). }
  split; [|split].
  - unfold compressing at 1. rewrite name_suffix_compr, String.eqb_refl by done.
    rewrite Htrue.
    by rewrite strip_step, stem_compr
      by (unfold strippable;
          by rewrite ?name_suffix_compr, ?String.eqb_refl, ?orb_true_r).
  - unfold compressing at 1.
    rewrite name_suffix_csv_compr, String.eqb_refl by done.
    rewrite Htrue.
    pose proof (strip_canonical zs Hzs b true Hb) as Hs.
    unfold canonical in Hs. by rewrite Hs.
  - intros Hsfx. unfold compressing.
    rewrite name_suffix_csv by done.
    destruct (String.eqb_spec ".csv" zs) as [E|_]; [by destruct Hcsv|].
    destruct (String.eqb_spec (name_suffix b) zs) as [E|_]; [done|].
    pose proof (strip_canonical zs Hzs b false Hb) as Hs.
    unfold canonical in Hs. by rewrite Hs.
Qed.

End ConstructorOutcome.

Lemma constructor_outcome_witness :
  exists c, Csv.new (rel ["data"; "table.v1"]) true = Ok c.
Proof.
  apply (proj1 (proj2 (proj2 (constructor_outcome ".zip" eq_refl
                                (rel ["data"; "table.v1"]) true)))).
  discriminate.
Defined.


Lemma equivalent_spellings_witness :
  path_result (Csv.new (rel ["data"; "table.csv.zip"]) false)
  = path_result (Csv.new (rel ["data"; "table"]) true).
Proof.
  assert ("table" <> "") as Hb by discriminate.
  assert (".zip" <> ".csv") as Hz by discriminate.
  exact (proj1 (proj2 (equivalent_spellings ".zip" eq_refl
                         (rel ["data"; "x"]) "table" false Hb Hz))).
Defined.

(** * Compression suffixes that are no suffix *)

Section OddSuffixes.

Import Normal.

Lemma with_suffix_empty_same p :
  name p <> "" -> suffix p = "" ->
  exists p', with_suffix p "" = Ok p' /\ name p' = name p.
Proof.
  intros Hne Hs. rewrite with_suffix_empty by done.
  eexists. split; [done|].
  rewrite name_with_name. by apply stem_no_suffix.
Qed.

Lemma strip_loop_for_ever csv_suffix compr_suffix fuel : forall p,
  csv_suffix = "" \/ compr_suffix = "" ->
  name p <> "" -> suffix p = "" ->
  Csv.strip_loop fuel csv_suffix compr_suffix p = Timeout.
Proof.
  intros p Hempty.
  assert (String.eqb "" csv_suffix || String.eqb "" compr_suffix = true)
    as Hin.
  { destruct Hempty as [-> | ->]; [done|apply orb_true_r]. }
  revert p. induction fuel as [|fuel IH]; intros p Hne Hs.
  - simpl. by rewrite Hs, Hin.
  - simpl. rewrite Hs, Hin.
    destruct (with_suffix_empty_same p Hne Hs) as (p' & -> & Hn).
    simpl. apply IH; [by rewrite Hn|].
    unfold suffix. rewrite Hn. exact Hs.
Qed.

(** X2.  With an empty base or compression suffix the constructor never
    returns on a path whose name has no suffix: the loop finds the empty
    suffix in its set, [with_suffix("")] gives the same path back, and so
    on for ever, whatever fuel the loop is given. *)
Theorem empty_suffix_loops_for_ever csv_suffix compr_suffix p compress log :
  csv_suffix = "" \/ compr_suffix = "" ->
  name p <> "" -> suffix p = "" ->
  forall fuel,
    Csv.init fuel p compress log csv_suffix compr_suffix = Timeout.
Proof.
  intros Hempty Hne Hs fuel. unfold Csv.init.
  by rewrite strip_loop_for_ever.
Qed.

(** A pathlib suffix is empty or starts with a dot. *)
Lemma rfind_drop c s :
  (0 <= PyStr.rfind c s)%Z ->
  exists rest, PyStr.drop (Z.to_nat (PyStr.rfind c s)) s = String c rest.
Proof.
  induction s as [|a s IH]; simpl; [lia|].
  destruct (0 <=? PyStr.rfind c s)%Z eqn:E.
  - intros _. apply Z.leb_le in E. destruct (IH E) as [rest Hrest].
    exists rest. rewrite Z2Nat.inj_add, Nat.add_1_r by lia. exact Hrest.
  - destruct (Ascii.eqb_spec a c) as [->|]; [|lia].
    intros _. by exists s.
Qed.

Lemma name_suffix_dotted nm :
  name_suffix nm = "" \/ exists e, name_suffix nm = String "." e.
Proof.
  unfold name_suffix. destruct (_ && _)%Z eqn:E; [|by left].
  right. apply andb_true_iff in E as [E _]. apply Z.ltb_lt in E.
  apply rfind_drop. lia.
Qed.

Variable zs : string.
Hypothesis Hne : zs <> "".
Hypothesis Hdot : PyStr.rfind "." zs = (-1)%Z.
Hypothesis Hslash : PyStr.contains "/" zs = false.

Lemma undotted_never_suffix nm : String.eqb (name_suffix nm) zs = false.
Proof using Hne Hdot.
  apply String.eqb_neq. intros E.
  destruct (name_suffix_dotted nm) as [H|[e H]]; rewrite H in E.
  - by destruct Hne.
  - rewrite <- E in Hdot. simpl in Hdot.
    destruct (0 <=? PyStr.rfind "." e)%Z eqn:E'; [|done].
    apply Z.leb_le in E'. lia.
Qed.

Lemma strip_loop_undotted fuel : forall p,
  Csv.strip_loop fuel ".csv" zs p = Csv.strip_loop fuel ".csv" ".csv" p.
Proof using Hne Hdot.
  induction fuel as [|fuel IH]; intros p; simpl;
    unfold suffix; rewrite undotted_never_suffix;
    destruct (String.eqb (name_suffix (name p)) ".csv"); simpl; try done.
  destruct (with_suffix p "") as [p'| |]; simpl; [|done..]. apply IH.
Qed.

Lemma with_suffix_csv_undotted p :
  with_suffix p (".csv" +:+ zs) =
    if String.eqb (name p) "" then Raise ValueError
    else Ok (with_name p (stem (name p) +:+ ".csv" +:+ zs)).
Proof using Hslash.
  unfold with_suffix. simpl. rewrite Hslash.
  destruct (String.eqb (name p) ""); by rewrite ?name_with_suffix_stem.
Qed.

Lemma name_suffix_csv_undotted b :
  b <> "" -> name_suffix (b +:+ ".csv" +:+ zs) = ".csv" +:+ zs.
Proof using Hdot.
  intros Hb. apply (name_suffix_dot b ("csv" +:+ zs)); [done|done|].
  rewrite rfind_app, Hdot. done.
Qed.

(** X6.  A compression suffix written without its dot (["zip"], ["gzip"],
    as the annotation of [compr_suffix] lists them) is never the suffix of
    a path, so it never forces compression and is never stripped; with
    [compress=True] the accessor's name ends in [".csv"] fused with it
    ([".csvzip"]), with [compress=False] in [".csv"], also for a path that
    ends in [".zip"]. *)
Theorem undotted_compr_suffix p compress :
  name p <> "" ->
  exists c,
    Csv.new_with p compress zs = Ok c
    /\ name (Csv.csv_path c) =
         stem (strip ".csv" (name p))
         +:+ (if compress then ".csv" +:+ zs else ".csv")
    /\ suffix (Csv.csv_path c) =
         if compress then ".csv" +:+ zs else ".csv".
Proof using Hne Hdot Hslash.
  intros Hp. unfold Csv.new_with, Csv.init.
  rewrite strip_loop_undotted.
  destruct (strip_loop_name ".csv" eq_refl (S (String.length (name p))) p)
    as (p0 & -> & Hn & Hw); [lia|].
  change (String.eqb (suffix p) zs)
    with (String.eqb (name_suffix (name p)) zs).
  rewrite undotted_never_suffix.
  unfold mbind at 1, result_bind at 1.
  assert (stem (strip ".csv" (name p)) <> "") as Hb
    by by apply (base_nonempty ".csv" eq_refl).
  assert (String.eqb (name p0) "" = false) as Hp0.
  { rewrite Hn. apply String.eqb_neq.
    by apply (strip_nonempty ".csv" eq_refl). }
  destruct compress.
  - rewrite with_suffix_csv_undotted, Hp0, Hn, Hw. simpl.
    eexists. split; [done|]. simpl. rewrite name_with_name. split; [done|].
    unfold suffix. rewrite name_with_name. by apply name_suffix_csv_undotted.
  - pose proof (with_suffix_canonical ".csv" eq_refl p0 false) as Hf.
    unfold canonical in Hf. rewrite Hf, Hp0, Hn, Hw. simpl.
    eexists. split; [done|]. simpl. rewrite name_with_name. split; [done|].
    unfold suffix. rewrite name_with_name. by apply name_suffix_csv.
Qed.

End OddSuffixes.

Lemma empty_suffix_loops_for_ever_witness :
  Csv.init 1000 (rel ["data"; "table"]) false None ".csv" "" = Timeout.
Proof.
  assert (name (rel ["data"; "table"]) <> "") as Hne by discriminate.
  exact (empty_suffix_loops_for_ever ".csv" "" (rel ["data"; "table"]) false
           None (or_intror eq_refl) Hne eq_refl 1000).
Defined.

Lemma undotted_compr_suffix_witness :
  exists c,
    Csv.new_with (rel ["data"; "table.zip"]) true "zip" = Ok c
    /\ name (Csv.csv_path c) = "table.csvzip"
    /\ suffix (Csv.csv_path c) = ".csvzip".
Proof.
  assert ("zip" <> "") as Hz by discriminate.
  assert (name (rel ["data"; "table.zip"]) <> "") as Hp by discriminate.
  exact (undotted_compr_suffix "zip" Hz eq_refl eq_refl
           (rel ["data"; "table.zip"]) true Hp).
Defined.

(** * Further properties of [Csv.read] *)

(** A stand-in for pandas on a file that the C parser rejects when split at
    commas, and reads as the table when split at tabs. *)
Definition read_csv_rejecting_commas (fs : ()) (path : PurePath)
    (index_col : index_col) (dtype : option ()) (nrows : option nat)
    (sep : string) : result (DataFrame Z) :=
  if String.eqb sep "," then Raise ValueError else Ok Toy.table.

Section ReadErrors.

Import Reading.

Context {V Dtype FS : Type}.
Variable read_csv :
  FS -> PurePath -> index_col -> option Dtype -> option nat -> string ->
  result (DataFrame V).
Variable np_round : Index V -> Z -> result (Index V).
Variables (fs : FS) (self : Csv.t) (dtype : option Dtype).

(** X7.  [read] has no fallback for exceptions.  When the comma preview
    raises, [read] raises the same after that one call, and the tab is not
    tried, however well the file would parse with it; when the comma
    preview shows no column and the tab preview raises, [read] raises that;
    when the previews settle on a delimiter and the full [read_csv]
    raises, [read] raises that, and no other delimiter is tried. *)
Theorem read_propagates_errors idx_round_prec index_cols tr e :
  let preview sep :=
    read_csv fs (Csv.csv_path self) (IdxInt 0) dtype (Some 2) sep in
  let full sep := read_csv fs (Csv.csv_path self) index_cols dtype None sep in
  let read :=
    Csv.read read_csv np_round fs self dtype idx_round_prec index_cols tr in
  (preview "," = Raise e -> read = (Raise e, tr ++ [preview_call ","]))
  /\ (forall c,
        preview "," = Ok c -> shape1 c = 0 -> preview TAB = Raise e ->
        read = (Raise e, tr ++ [preview_call ","; preview_call TAB]))
  /\ (forall c,
        preview "," = Ok c -> 0 < shape1 c -> full "," = Raise e ->
        read = (Raise e, tr ++ [preview_call ","; full_call index_cols ","]))
  /\ (forall c c',
        preview "," = Ok c -> shape1 c = 0 -> preview TAB = Ok c' ->
        full TAB = Raise e ->
        read = (Raise e, tr ++ [preview_call ","; preview_call TAB;
                                full_call index_cols TAB])).
Proof.
  intros preview full read. unfold read. rewrite read_outcome.
  fold (preview ","). fold (preview TAB).
  fold (full ","). fold (full TAB).
  repeat split.
  - by intros ->.
  - intros c -> -> ->. done.
  - intros c -> H ->. apply Nat.ltb_lt in H. by rewrite H.
  - intros c c' -> -> -> ->. done.
Qed.

End ReadErrors.

Lemma read_propagates_errors_witness :
  Csv.read read_csv_rejecting_commas Toy.np_round () Toy.accessor None None
    (IdxInt 0) []
  = (Raise ValueError, [Reading.preview_call ","]).
Proof.
  exact (proj1 (read_propagates_errors read_csv_rejecting_commas Toy.np_round
                  () Toy.accessor None None (IdxInt 0) [] ValueError)
           eq_refl).
Defined.

(** * Further properties of the estimator and the pipeline *)

Module Estimating.

Import Predicting.

(** A row of targets, or of predictions, that is one label of the
    vocabulary. *)
Definition label_row (row : list string) : Prop :=
  exists l, row = [l] /\ l ∈ ["Good"; "Acceptable"; "Marginal"; "Poor"].

(** The one-hot row of a label row, over the sorted categories. *)
Definition encode {V : Type} (zero one : V) (row : list string) : list V :=
  match row with
  | [l] =>
      Sklearn.one_hot zero one 4 (default O (Sklearn.index_of l categories))
  | _ => []
  end.


(** What holds of the estimator however it was used. *)
Definition invariant {W : Type} (m : _Model.t W) : Prop :=
  _Model.labels m = _Model.vocabulary
  /\ (Sklearn.categories_ (_Model.encoder m) = None
      \/ Sklearn.categories_ (_Model.encoder m) = Some [categories])
  /\ (_Model.model m = None
      \/ exists net w,
           _Model.model m = Some (net, w)
           /\ (Keras.output net = Keras.Dense 1 Keras.Sigmoid
               \/ Keras.output net = Keras.Dense 4 Keras.Softmax)).

(** The pipelines a caller can get to: a fresh one, and from one of them
    by [set_params], or by a [fit] that returns. *)
Inductive reachable {V W : Type} (zero one : V)
    (encoder_error : list (list V) -> exn)
    (keras_fit :
       Keras.Model -> ndarray V -> ndarray V -> _Model.target V ->
       nat -> nat -> result W)
    : ExampleCnnMixedPipe.t W -> Prop :=
  | reach_init work_dir log :
      reachable zero one encoder_error keras_fit
        (ExampleCnnMixedPipe.init work_dir log)
  | reach_set_params self parameters :
      reachable zero one encoder_error keras_fit self ->
      reachable zero one encoder_error keras_fit
        (ExampleCnnMixedPipe.set_params self parameters).1
  | reach_fit self x x_2d y self' :
      reachable zero one encoder_error keras_fit self ->
      ExampleCnnMixedPipe.fit zero one encoder_error keras_fit self x x_2d y
      = Ok self' ->
      reachable zero one encoder_error keras_fit self'.

End Estimating.

Section LabelFacts.

Import Predicting Estimating.



End LabelFacts.

Section EncoderFacts.

Import Predicting Estimating.

Context {V : Type}.
Variables zero one : V.
Variable ltb : V -> V -> bool.
Variable is_finite : V -> bool.
Variable sum_is_zero : list V -> bool.

Lemma transform_row_label row :
  label_row row ->
  Sklearn.transform_row zero one [categories] row = Ok (encode zero one row).
Proof.
  intros (l & -> & Hl). apply list_elem_of_In in Hl. simpl in Hl.
  by destruct Hl as [<-|[<-|[<-|[<-|[]]]]].
Qed.


(** What the fitted encoder decodes is a label row, every time. *)
Lemma inverse_transform_label_rows enc (X : list (list V)) Y :
  Sklearn.categories_ enc = Some [categories] ->
  Sklearn.inverse_transform ltb is_finite sum_is_zero enc X = Ok Y ->
  Forall label_row Y.
Proof.
  unfold Sklearn.inverse_transform. intros -> H.
  destruct X as [|row0 X0]; [done|].
  destruct (negb (Sklearn.all_finite is_finite (row0 :: X0))); [done|].
  apply mapM_ok_inv in H.
  induction H as [|row r X Y Hr _ IH]; constructor; [|done].
  destruct row as [|a [|b [|c [|d [|]]]]]; try done.
  rewrite (inverse_row_four ltb sum_is_zero [a; b; c; d] eq_refl) in Hr.
  destruct (sum_is_zero [a; b; c; d]); [done|].
  injection Hr as <-. eexists. split; [done|].
  by apply (decode_in_vocabulary ltb [a; b; c; d]).
Qed.

End EncoderFacts.

Section EstimatorFacts.

Import Predicting Estimating Params.

Context {V W : Type}.
Variables zero one : V.
Variable ltb : V -> V -> bool.
Variable is_finite : V -> bool.
Variable sum_is_zero : list V -> bool.
Variable encoder_error : list (list V) -> exn.
Variable keras_fit :
  Keras.Model -> ndarray V -> ndarray V -> _Model.target V ->
  forall (epochs batch_size : nat), result W.
Variable keras_forward :
  Keras.Model -> W -> ndarray V -> ndarray V -> result (nat -> nat -> V).

Implicit Types (m : _Model.t W) (self : ExampleCnnMixedPipe.t W).
Implicit Types (x x_2d : ndarray V).

(** [set_params] leaves network, encoder and labels alone. *)
Lemma set_params_estimator self parameters :
  let est := ExampleCnnMixedPipe.estimator
               (ExampleCnnMixedPipe.set_params self parameters).1 in
  _Model.model est = _Model.model (ExampleCnnMixedPipe.estimator self)
  /\ _Model.encoder est = _Model.encoder (ExampleCnnMixedPipe.estimator self)
  /\ _Model.labels est = _Model.labels (ExampleCnnMixedPipe.estimator self).
Proof.
  rewrite set_params_outcome.
  destruct (parameters !! "Estimator") as [[| | | | |est]|]; try done.
  by destruct (est !! "is_binary").
Qed.

Lemma set_params_flag_labels self parameters v :
  key_path parameters v ->
  _Model.is_binary
    (ExampleCnnMixedPipe.estimator
       (ExampleCnnMixedPipe.set_params self parameters).1) = v
  /\ _Model.labels
       (ExampleCnnMixedPipe.estimator
          (ExampleCnnMixedPipe.set_params self parameters).1)
     = _Model.labels (ExampleCnnMixedPipe.estimator self).
Proof.
  intros Hv. apply key_path_lookup in Hv.
  rewrite set_params_outcome.
  destruct (parameters !! "Estimator") as [[| | | | |est]|]; try done.
  by rewrite Hv.
Qed.

(** X8.  [predict] before any [fit] raises [AttributeError], the network
    being [None]; a call of [set_params] in between, successful or not,
    changes nothing about it. *)
Theorem predict_before_fit self parameters x x_2d :
  _Model.model (ExampleCnnMixedPipe.estimator self) = None ->
  ExampleCnnMixedPipe.predict ltb is_finite sum_is_zero keras_forward self x x_2d
  = Raise AttributeError
  /\ ExampleCnnMixedPipe.predict ltb is_finite sum_is_zero keras_forward
       (ExampleCnnMixedPipe.set_params self parameters).1 x x_2d
     = Raise AttributeError.
Proof.
  intros H. unfold ExampleCnnMixedPipe.predict, _Model.predict.
  destruct (set_params_estimator self parameters) as (-> & _ & _).
  by rewrite H.
Qed.

(** X9.  [predict] goes by the flag as it is when [predict] is called, not
    as it was when [fit] ran.  After a [fit] in binary mode on an encoder
    never fitted, a falsy flag makes [predict] raise [NotFittedError], once
    the network has answered. *)
Theorem predict_multiclass_after_binary_fit m x x_2d y m' v net w x' x_2d' f :
  Sklearn.categories_ (_Model.encoder m) = None ->
  truthy (_Model.is_binary m) = true ->
  _Model.fit zero one encoder_error keras_fit m x x_2d y = Ok m' ->
  truthy v = false ->
  _Model.model m' = Some (net, w) ->
  keras_forward net w x' x_2d' = Ok f ->
  _Model.predict ltb is_finite sum_is_zero keras_forward (_Model.set_is_binary m' v) x' x_2d'
  = Raise NotFittedError.
Proof.
  intros Henc Hb Hfit Hv Hm Hf.
  apply fit_inv in Hfit as (d & w' & _ & _ & _ & _ & He).
  rewrite Hb in He.
  unfold _Model.predict, _Model.keras_predict. simpl.
  rewrite Hm. simpl. rewrite Hf. simpl. rewrite Hv. simpl.
  unfold Sklearn.inverse_transform. by rewrite He, Henc.
Qed.

(** X10.  After a [fit] in multiclass mode, a truthy flag makes [predict]
    return the four class scores of every sample as they come from the
    network, undecoded. *)
Theorem predict_binary_after_multiclass_fit m x x_2d y m' v net w x' x_2d' f :
  _Model.labels m = _Model.vocabulary ->
  truthy (_Model.is_binary m) = false ->
  _Model.fit zero one encoder_error keras_fit m x x_2d y = Ok m' ->
  truthy v = true ->
  _Model.model m' = Some (net, w) ->
  keras_forward net w x' x_2d' = Ok f ->
  _Model.predict ltb is_finite sum_is_zero keras_forward (_Model.set_is_binary m' v) x' x_2d'
  = Ok (_Model.Numeric
          (map (fun i => map (f i) (seq 0 4)) (seq 0 (samples x')))).
Proof.
  intros Hl Hb Hfit Hv Hm Hf.
  apply fit_inv in Hfit as (d & w' & _ & Hm' & _ & _ & _).
  rewrite Hm in Hm'. injection Hm' as -> _.
  unfold _Model.predict, _Model.keras_predict. simpl.
  rewrite Hm. simpl. rewrite Hf. simpl. rewrite Hv. simpl.
  unfold Keras.output_units. rewrite build_output, Hb by done. done.
Qed.

(** X11.  [set_params] takes any value for [is_binary], and the mode is
    its truth value: every truthy value (also the string ["False"]) gives
    the single sigmoid unit and the binary loss, every falsy one (also [0],
    [None], the empty string) the four-unit softmax and the categorical
    loss. *)
Theorem set_params_truthiness_selects_mode self parameters v input_dim d :
  key_path parameters v ->
  _Model.labels (ExampleCnnMixedPipe.estimator self) = _Model.vocabulary ->
  let net :=
    _Model.build
      (ExampleCnnMixedPipe.estimator
         (ExampleCnnMixedPipe.set_params self parameters).1) input_dim d in
  Keras.output net =
    (if truthy v then Keras.Dense 1 Keras.Sigmoid
     else Keras.Dense 4 Keras.Softmax)
  /\ Keras.loss net =
       (if truthy v then "binary_crossentropy"
        else "categorical_crossentropy").
Proof.
  intros Hv Hl net. unfold net.
  destruct (set_params_flag_labels self parameters v Hv) as (Hb & Hl').
  rewrite build_output by by rewrite Hl'.
  unfold _Model.build. simpl. by rewrite Hb.
Qed.

End EstimatorFacts.

Section TrainingFacts.

Import Predicting Estimating Params.

Context {V W : Type}.
Variables zero one : V.
Variable ltb : V -> V -> bool.
Variable is_finite : V -> bool.
Variable sum_is_zero : list V -> bool.
Variable encoder_error : list (list V) -> exn.
Variable keras_fit :
  Keras.Model -> ndarray V -> ndarray V -> _Model.target V ->
  forall (epochs batch_size : nat), result W.
Variable keras_forward :
  Keras.Model -> W -> ndarray V -> ndarray V -> result (nat -> nat -> V).

Implicit Types (m : _Model.t W) (self : ExampleCnnMixedPipe.t W).
Implicit Types (x x_2d : ndarray V).

Lemma transform_vocabulary enc rows :
  rows <> [] ->
  Sklearn.transform zero one (Sklearn.fit enc _Model.vocabulary) rows
  = Sklearn.mapM (Sklearn.transform_row zero one [categories]) rows.
Proof. by destruct rows. Qed.


(** X13.  In multiclass mode, on a batch of targets that has a row at
    least and only label rows, [fit] trains the network it has just built
    on the one-hot rows of the labels over the sorted categories, for 3
    epochs in batches of 32, and keeps the network with the weights Keras
    returns. *)
Theorem fit_trains_on_one_hot_rows m x x_2d rows :
  truthy (_Model.is_binary m) = false ->
  _Model.labels m = _Model.vocabulary ->
  rows <> [] ->
  Forall label_row rows ->
  _Model.model <$>
    _Model.fit zero one encoder_error keras_fit m x x_2d (_Model.Labels rows)
  = (d ← match last (shape x_2d) with
          | Some d => Ok d
          | None => Raise IndexError
          end;
     w ← keras_fit (_Model.build m (tail (shape x)) d) x x_2d
           (_Model.Numeric (map (encode zero one) rows)) 3 32;
     Ok (Some (_Model.build m (tail (shape x)) d, w))).
Proof.
  intros Hb Hl Hne Hrows. unfold _Model.fit.
  destruct (last (shape x_2d)) as [d|]; [|done]. simpl.
  rewrite Hb, Hl. simpl.
  rewrite transform_vocabulary by done.
  rewrite (mapM_ok _ (encode zero one)).
  - simpl. by destruct (keras_fit _ _ _ _ _ _).
  - eapply Forall_impl; [exact Hrows|].
    intros row Hrow. exact (transform_row_label zero one row Hrow).
Qed.

(** X14.  The flow of the module's own [test]: a fresh pipeline, then
    [set_params] with [is_binary] true, then a [fit] that returns, then
    [predict]: one row per sample, holding the one value of the sigmoid
    unit. *)
Theorem pipeline_binary_run work_dir log parameters x x_2d y self net w
    x' x_2d' f :
  key_path parameters (PyBool true) ->
  ExampleCnnMixedPipe.fit zero one encoder_error keras_fit
    (ExampleCnnMixedPipe.set_params
       (ExampleCnnMixedPipe.init work_dir log) parameters).1 x x_2d y
  = Ok self ->
  _Model.model (ExampleCnnMixedPipe.estimator self) = Some (net, w) ->
  keras_forward net w x' x_2d' = Ok f ->
  ExampleCnnMixedPipe.predict ltb is_finite sum_is_zero keras_forward self x' x_2d'
  = Ok (_Model.Numeric (map (fun i => [f i 0]) (seq 0 (samples x')))).
Proof.
  intros Hp Hfit Hm Hf. unfold ExampleCnnMixedPipe.fit in Hfit.
  destruct (_Model.fit _ _ _ _ _ _ _) as [est| |] eqn:E; [|done..].
  simpl in Hfit. injection Hfit as <-. simpl in *.
  destruct (set_params_flag_labels
              (ExampleCnnMixedPipe.init (W:=W) work_dir log) parameters _ Hp)
    as [Hflag Hl].
  apply (predict_after_fit zero one ltb is_finite sum_is_zero encoder_error
           keras_fit keras_forward) in E
    as (net' & w' & Hm' & _ & _ & _ & Hpred); [|by rewrite Hl].
  rewrite Hm in Hm'. injection Hm' as <- <-.
  unfold ExampleCnnMixedPipe.predict. simpl.
  rewrite (Hpred x' x_2d' f Hf), Hflag. done.
Qed.

End TrainingFacts.

Section ReachableFacts.

Import Predicting Estimating Params.

Context {V W : Type}.
Variables zero one : V.
Variable ltb : V -> V -> bool.
Variable is_finite : V -> bool.
Variable sum_is_zero : list V -> bool.
Variable encoder_error : list (list V) -> exn.
Variable keras_fit :
  Keras.Model -> ndarray V -> ndarray V -> _Model.target V ->
  forall (epochs batch_size : nat), result W.
Variable keras_forward :
  Keras.Model -> W -> ndarray V -> ndarray V -> result (nat -> nat -> V).

Implicit Types (m : _Model.t W) (self : ExampleCnnMixedPipe.t W).
Implicit Types (x x_2d : ndarray V).

Lemma invariant_fit m x x_2d y m' :
  invariant m ->
  _Model.fit zero one encoder_error keras_fit m x x_2d y = Ok m' ->
  invariant m'.
Proof.
  intros (Hl & Henc & _) Hfit.
  apply fit_inv in Hfit as (d & w & _ & Hm & _ & Hl' & He).
  split; [by rewrite Hl'|]. split.
  - rewrite He. destruct (truthy (_Model.is_binary m)); [done|].
    right. rewrite Hl. apply fit_vocabulary.
  - right. eexists _, _. split; [exact Hm|].
    rewrite build_output by done.
    destruct (truthy (_Model.is_binary m)); [by left|by right].
Qed.

Lemma invariant_reachable self :
  reachable zero one encoder_error keras_fit self ->
  invariant (ExampleCnnMixedPipe.estimator self).
Proof.
  induction 1 as [wd log|self parameters _ IH|self x x_2d y self' _ IH Hfit].
  - split; [done|]. split; by left.
  - destruct (set_params_estimator self parameters) as (Hm & He & Hl).
    destruct IH as (IH1 & IH2 & IH3).
    unfold invariant. by rewrite Hm, He, Hl.
  - unfold ExampleCnnMixedPipe.fit in Hfit.
    destruct (_Model.fit _ _ _ _ _ _ _) as [est| |] eqn:E; [|done..].
    simpl in Hfit. injection Hfit as <-. simpl.
    by apply (invariant_fit _ _ _ _ _ IH E).
Qed.

Lemma predict_invariant m x x_2d r :
  invariant m ->
  _Model.predict ltb is_finite sum_is_zero keras_forward m x x_2d = Ok r ->
  match r with
  | _Model.Labels rows => Forall label_row rows
  | _Model.Numeric rows =>
      Forall (fun row => length row = 1 \/ length row = 4) rows
  end.
Proof.
  intros (_ & Henc & Hm) H. unfold _Model.predict, _Model.keras_predict in H.
  destruct Hm as [Hm|(net & w & Hm & Hout)]; rewrite Hm in H; [done|].
  simpl in H.
  destruct (keras_forward net w x x_2d) as [f| |]; [|done..]. simpl in H.
  destruct (truthy (_Model.is_binary m)); simpl in H.
  - injection H as <-. apply Forall_forall. intros row Hrow.
    apply list_elem_of_In, in_map_iff in Hrow as (i & <- & _).
    rewrite length_map, length_seq. unfold Keras.output_units.
    destruct Hout as [-> | ->]; [by left|by right].
  - destruct (Sklearn.inverse_transform _ _ _ _ _) as [rows| |] eqn:E;
      [|done..].
    simpl in H. injection H as <-.
    destruct Henc as [Henc|Henc].
    + unfold Sklearn.inverse_transform in E. by rewrite Henc in E.
    + by apply (inverse_transform_label_rows ltb is_finite sum_is_zero
                  _ _ _ Henc E).
Qed.

(** X15.  However a pipeline was used ([set_params] with any arguments,
    [fit] calls that returned, in any order and number, modes changed in
    between), what [predict] returns is sound: when it returns labels,
    every row is exactly one label of the vocabulary; when it returns
    numbers, every row has one column or four.  The estimator keeps its
    vocabulary throughout. *)
Theorem reachable_predict_sound self x x_2d r :
  reachable zero one encoder_error keras_fit self ->
  ExampleCnnMixedPipe.predict ltb is_finite sum_is_zero keras_forward self x x_2d = Ok r ->
  _Model.labels (ExampleCnnMixedPipe.estimator self) = _Model.vocabulary
  /\ match r with
     | _Model.Labels rows => Forall label_row rows
     | _Model.Numeric rows =>
         Forall (fun row => length row = 1 \/ length row = 4) rows
     end.
Proof.
  intros Hr Hp. apply invariant_reachable in Hr as Hinv.
  split; [by destruct Hinv|].
  exact (predict_invariant (ExampleCnnMixedPipe.estimator self) x x_2d r
           Hinv Hp).
Qed.

End ReachableFacts.

(** ** The further properties, run on the stand-ins *)

Module ToyPipe.

Definition fresh : ExampleCnnMixedPipe.t () :=
  ExampleCnnMixedPipe.init (rel []) None.

(** [set_params(Estimator={"is_binary": v})] *)
Definition parameters (v : pyval) : gmap string pyval :=
  {[ "Estimator" := PyDict {[ "is_binary" := v ]} ]}.

Definition binary : _Model.t () :=
  _Model.set_is_binary (_Model.init None) (PyBool true).

Definition targets : _Model.target Z := _Model.Numeric [[1]; [0]]%Z.

Definition fitted_binary : _Model.t () :=
  match _Model.fit 0%Z 1%Z Toy.encoder_error Toy.keras_fit binary Toy.x Toy.x_2d targets with
  | Ok m => m
  | _ => binary
  end.

(** The pipeline of [test]: parameters set, then fitted. *)
Definition tested : ExampleCnnMixedPipe.t () :=
  match ExampleCnnMixedPipe.fit 0%Z 1%Z Toy.encoder_error Toy.keras_fit
          (ExampleCnnMixedPipe.set_params fresh (parameters (PyBool true))).1
          Toy.x Toy.x_2d targets with
  | Ok self => self
  | _ => fresh
  end.

Definition scores (i j : nat) : Z := Z.of_nat (i * j).

End ToyPipe.

Lemma predict_before_fit_witness :
  ExampleCnnMixedPipe.predict Z.ltb Toy.is_finite Toy.sum_is_zero
    Toy.keras_forward
    (ExampleCnnMixedPipe.set_params ToyPipe.fresh
       (ToyPipe.parameters (PyBool true))).1 Toy.x Toy.x_2d
  = Raise AttributeError.
Proof.
  exact (proj2 (predict_before_fit Z.ltb Toy.is_finite Toy.sum_is_zero
                  Toy.keras_forward ToyPipe.fresh
                  (ToyPipe.parameters (PyBool true)) Toy.x Toy.x_2d eq_refl)).
Defined.

Lemma predict_multiclass_after_binary_fit_witness :
  _Model.predict Z.ltb Toy.is_finite Toy.sum_is_zero Toy.keras_forward
    (_Model.set_is_binary ToyPipe.fitted_binary (PyBool false))
    Toy.x Toy.x_2d
  = Raise NotFittedError.
Proof.
  exact (predict_multiclass_after_binary_fit 0%Z 1%Z Z.ltb Toy.is_finite
           Toy.sum_is_zero Toy.encoder_error Toy.keras_fit
           Toy.keras_forward ToyPipe.binary Toy.x Toy.x_2d ToyPipe.targets
           ToyPipe.fitted_binary (PyBool false)
           (_Model.build ToyPipe.binary [3; 2] 3) () Toy.x Toy.x_2d
           ToyPipe.scores eq_refl eq_refl eq_refl eq_refl eq_refl eq_refl).
Defined.

Lemma predict_binary_after_multiclass_fit_witness :
  _Model.predict Z.ltb Toy.is_finite Toy.sum_is_zero Toy.keras_forward
    (_Model.set_is_binary Toy.fitted (PyBool true)) Toy.x Toy.x_2d
  = Ok (_Model.Numeric [[0; 0; 0; 0]; [0; 1; 2; 3]]%Z).
Proof.
  exact (predict_binary_after_multiclass_fit 0%Z 1%Z Z.ltb Toy.is_finite
           Toy.sum_is_zero Toy.encoder_error Toy.keras_fit
           Toy.keras_forward Toy.multiclass Toy.x Toy.x_2d
           (_Model.Labels [["Good"]; ["Poor"]]) Toy.fitted (PyBool true)
           (_Model.build Toy.multiclass [3; 2] 3) () Toy.x Toy.x_2d
           ToyPipe.scores eq_refl eq_refl eq_refl eq_refl eq_refl eq_refl).
Defined.

Lemma set_params_truthiness_selects_mode_witness :
  Keras.output
    (_Model.build
       (ExampleCnnMixedPipe.estimator
          (ExampleCnnMixedPipe.set_params ToyPipe.fresh
             (ToyPipe.parameters (PyStr "False"))).1) [3; 2] 3)
  = Keras.Dense 1 Keras.Sigmoid
  /\ Keras.loss
       (_Model.build
          (ExampleCnnMixedPipe.estimator
             (ExampleCnnMixedPipe.set_params ToyPipe.fresh
                (ToyPipe.parameters (PyStr "False"))).1) [3; 2] 3)
     = "binary_crossentropy".
Proof.
  apply (set_params_truthiness_selects_mode ToyPipe.fresh
           (ToyPipe.parameters (PyStr "False")) (PyStr "False") [3; 2] 3).
  - exists {[ "is_binary" := PyStr "False" ]}. split; reflexivity.
  - reflexivity.
Defined.


Lemma fit_trains_on_one_hot_rows_witness :
  _Model.model <$>
    _Model.fit 0%Z 1%Z Toy.encoder_error Toy.keras_fit Toy.multiclass
      Toy.x Toy.x_2d (_Model.Labels [["Good"]; ["Poor"]])
  = Ok (Some (_Model.build Toy.multiclass [3; 2] 3, ())).
Proof.
  apply (fit_trains_on_one_hot_rows 0%Z 1%Z Toy.encoder_error Toy.keras_fit
           Toy.multiclass Toy.x Toy.x_2d [["Good"]; ["Poor"]]
           eq_refl eq_refl).
  - discriminate.
  - repeat constructor.
    + exists "Good". split; [reflexivity|].
      apply list_elem_of_In. simpl. tauto.
    + exists "Poor". split; [reflexivity|].
      apply list_elem_of_In. simpl. tauto.
Defined.

Lemma pipeline_binary_run_witness :
  ExampleCnnMixedPipe.predict Z.ltb Toy.is_finite Toy.sum_is_zero
    Toy.keras_forward ToyPipe.tested
    Toy.x Toy.x_2d
  = Ok (_Model.Numeric [[0]; [0]]%Z).
Proof.
  apply (pipeline_binary_run 0%Z 1%Z Z.ltb Toy.is_finite Toy.sum_is_zero
           Toy.encoder_error Toy.keras_fit Toy.keras_forward
           (rel []) None (ToyPipe.parameters (PyBool true))
           Toy.x Toy.x_2d ToyPipe.targets ToyPipe.tested
           (_Model.build ToyPipe.binary [3; 2] 3) () Toy.x Toy.x_2d
           ToyPipe.scores).
  - exists {[ "is_binary" := PyBool true ]}. split; reflexivity.
  - reflexivity.
  - reflexivity.
  - reflexivity.
Defined.

Lemma reachable_predict_sound_witness :
  _Model.labels (ExampleCnnMixedPipe.estimator ToyPipe.tested)
  = _Model.vocabulary
  /\ Forall (fun row : list Z => length row = 1 \/ length row = 4)
       [[0]; [0]]%Z.
Proof.
  apply (reachable_predict_sound 0%Z 1%Z Z.ltb Toy.is_finite
           Toy.sum_is_zero Toy.encoder_error Toy.keras_fit
           Toy.keras_forward ToyPipe.tested Toy.x Toy.x_2d
           (_Model.Numeric [[0]; [0]]%Z)).
  - apply (Estimating.reach_fit 0%Z 1%Z Toy.encoder_error Toy.keras_fit
             (ExampleCnnMixedPipe.set_params ToyPipe.fresh
                (ToyPipe.parameters (PyBool true))).1
             Toy.x Toy.x_2d ToyPipe.targets).
    + apply Estimating.reach_set_params, Estimating.reach_init.
    + reflexivity.
  - reflexivity.
Defined.

Section ReadCalls.

Import Reading.

Context {V Dtype FS : Type}.
Variable read_csv :
  FS -> PurePath -> index_col -> option Dtype -> option nat -> string ->
  result (DataFrame V).
Variable np_round : Index V -> Z -> result (Index V).
Variables (fs : FS) (self : Csv.t) (dtype : option Dtype).

(** X5.  Whatever the file and whatever pandas answers, one run of [read]
    calls [read_csv] at least once and at most three times, the first call
    being the two-row comma preview with [index_col=0] (the caller's
    [index_cols] is not used for previews), and never with a delimiter
    other than the comma and the tab. *)
Theorem read_calls_bounded idx_round_prec index_cols tr :
  exists calls,
    (Csv.read read_csv np_round fs self dtype idx_round_prec index_cols tr).2
    = tr ++ calls
    /\ head calls = Some (preview_call ",")
    /\ length calls <= 3
    /\ Forall (fun c => rc_sep c = "," \/ rc_sep c = TAB) calls.
Proof.
  rewrite read_outcome.
  destruct (read_csv fs (Csv.csv_path self) (IdxInt 0) dtype (Some 2) ",")
    as [c|e|]; simpl.
  - destruct (0 <? shape1 c)%nat; simpl.
    + eexists. split; [done|]. repeat split; [simpl; lia|].
      repeat constructor.
    + destruct (read_csv fs (Csv.csv_path self) (IdxInt 0) dtype (Some 2) TAB)
        as [c'|e|]; simpl;
        (eexists; split; [done|]; repeat split; [simpl; lia|]);
        repeat first [by constructor; [by left|]
                     |by constructor; [by right|]
                     |constructor; [by left|]
                     |constructor; [by right|]
                     |constructor].
  - eexists. split; [done|]. repeat split; [simpl; lia|]. repeat constructor.
  - eexists. split; [done|]. repeat split; [simpl; lia|]. repeat constructor.
Qed.

End ReadCalls.
